(** * Campus lost-and-found board: shallow embedding and verified properties

    The development follows the TypeScript sources:
    - [src/types/index.ts]            the [Item] and [FilterOptions] records;
    - [src/components/ItemList.tsx]   [filteredItems] and [sortedItems];
    - [src/services/api.ts]           [ApiService.getSearchSuggestions];
    - [src/components/Dashboard.tsx]  [calculateLocalData];
    - [src/components/ReportItemForm.tsx] [validateForm];
    - [src/utils/storage.ts]          the browser-storage item store.

    JavaScript strings are sequences of UTF-16 code units.  They are modelled
    by [string], whose characters are the code units below 256 (Latin-1); the
    string primitives below are the ECMAScript ones restricted to that range. *)

From Stdlib Require Import ZArith QArith Qpower Qround Lqa Ascii String.
From stdpp Require Import base tactics option list sorting strings pretty.

Close Scope Q_scope.
Open Scope string_scope.
Open Scope list_scope.
Open Scope Z_scope.
Open Scope nat_scope.

(** ** String primitives *)

Module JsString.

(** [String.prototype.toLowerCase] on one code unit: A-Z and the Latin-1
    capitals U+00C0..U+00DE (without the multiplication sign U+00D7) move up
    by 32, every other code unit below 256 is its own lower case. *)
Definition toLowerChar (c : ascii) : ascii :=
  let n := nat_of_ascii c in
  if (65 <=? n) && (n <=? 90) || (192 <=? n) && (n <=? 222) && negb (n =? 215)
  then ascii_of_nat (n + 32) else c.

Fixpoint toLowerCase (s : string) : string :=
  match s with
  | EmptyString => EmptyString
  | String c s' => String (toLowerChar c) (toLowerCase s')
  end.

(** [s.includes(t)]: [t] occurs in [s] at some position. *)
Fixpoint includes (s t : string) : bool :=
  String.prefix t s ||
  match s with
  | EmptyString => false
  | String _ s' => includes s' t
  end.

(** WhiteSpace and LineTerminator code units below 256:
    TAB, LF, VT, FF, CR, SP and NBSP. *)
Definition isWhiteSpace (c : ascii) : bool :=
  let n := nat_of_ascii c in
  (9 <=? n) && (n <=? 13) || (n =? 32) || (n =? 160).

Fixpoint trimStart (s : string) : string :=
  match s with
  | EmptyString => EmptyString
  | String c s' => if isWhiteSpace c then trimStart s' else s
  end.

Definition trimEnd (s : string) : string :=
  String.rev (trimStart (String.rev s)).

(** [s.trim()] *)
Definition trim (s : string) : string := trimEnd (trimStart s).

(** The regular-expression class [\d]. *)
Definition isDigit (c : ascii) : bool :=
  let n := nat_of_ascii c in (48 <=? n) && (n <=? 57).

Fixpoint allDigits (s : string) : bool :=
  match s with
  | EmptyString => true
  | String c s' => isDigit c && allDigits s'
  end.

(** Truthiness of a string: only the empty string is falsy. *)
Definition truthy (s : string) : bool :=
  match s with EmptyString => false | String _ _ => true end.

Definition digitValue (c : ascii) : option Z :=
  if isDigit c then Some (Z.of_nat (nat_of_ascii c) - 48)%Z else None.

Fixpoint digitsFrom (acc : Z) (s : string) : option Z :=
  match s with
  | EmptyString => Some acc
  | String c s' =>
      match digitValue c with
      | Some d => digitsFrom (10 * acc + d)%Z s'
      | None => None
      end
  end.

(** A non-empty run of decimal digits. *)
Definition digits (s : string) : option Z :=
  if truthy s then digitsFrom 0%Z s else None.

(** [s.split(sep)[0]] for a one-character separator: the part of [s] in front
    of the first [sep], all of [s] when there is none. *)
Fixpoint splitHead (sep : ascii) (s : string) : string :=
  match s with
  | EmptyString => EmptyString
  | String c s' => if bool_decide (c = sep) then EmptyString else String c (splitHead sep s')
  end.

End JsString.

(** ** [Array.prototype.sort]

    The sort is stable (ECMAScript 2019).  For a consistent comparator the
    result is the unique stable sorted arrangement, which the insertion sort
    below computes.  A comparator result of [None] stands for [NaN], which
    the sort reads as [+0]; a comparator that returns [NaN] for some pairs
    only is not consistent, and ECMAScript then leaves the order to the
    implementation.  What is stated about the order of a sorted array
    therefore assumes a comparator that returns numbers; for the others only
    the elements of the result are determined. *)

Module JsArray.

Section Sort.
Context {A : Type} (compareFn : A → A → option Z).

(** [x] may stay in front of [y]: the comparator does not ask for [y] first. *)
Definition keeps (x y : A) : bool :=
  match compareFn x y with
  | Some v => bool_decide (v ≤ 0)%Z
  | None => true
  end.

Fixpoint place (x : A) (l : list A) : list A :=
  match l with
  | [] => [x]
  | y :: l' => if keeps x y then x :: l else y :: place x l'
  end.

Definition sort (l : list A) : list A := foldr place [] l.

End Sort.

(** [a.slice(0, n)] *)
Definition slice0 {A : Type} (n : nat) (l : list A) : list A := take n l.

(** The position an index argument of [slice] denotes in an array of length
    [len]: negative arguments count from the end, and the result stays in
    range. *)
Definition relativeIndex (len i : Z) : Z :=
  if (i <? 0)%Z then Z.max (len + i) 0 else Z.min i len.

(** [a.slice(start, end)] *)
Definition slice {A : Type} (start end_ : Z) (l : list A) : list A :=
  let len := Z.of_nat (length l) in
  let k := relativeIndex len start in
  let final := relativeIndex len end_ in
  take (Z.to_nat (final - k)) (drop (Z.to_nat k) l).

End JsArray.

(** ** Data model ([src/types/index.ts]) *)

Record Item := mkItem {
  id : string;
  title : string;
  description : string;
  category : string;
  location : string;
  date : string;
  status : string;          (* 'active' | 'claimed' | 'pending' *)
  type : string;            (* 'lost' | 'found' *)
  image : option string;    (* image?: string *)
  contactName : string;
  contactInfo : string;
  createdAt : string
}.

Record FilterOptions := mkFilterOptions {
  f_search : string;
  f_category : string;
  f_location : string;
  f_type : string;
  f_status : string;
  f_dateFrom : string;
  f_dateTo : string
}.

#[global] Instance Item_eq_dec : EqDecision Item.
Proof. solve_decision. Defined.

(** ** [ItemList]: filtering and ordering *)

Module ItemList.

Section WithDate.
(** [new Date(s).getTime()], as the host computes it; [None] is the [NaN] of
    an Invalid Date. *)
Variable Date_getTime : string → option Z.

(** [new Date(a) >= new Date(b)]; a comparison with [NaN] is false. *)
Definition date_ge (a b : string) : bool :=
  match Date_getTime a, Date_getTime b with
  | Some x, Some y => bool_decide (y ≤ x)%Z
  | _, _ => false
  end.

Definition date_le (a b : string) : bool :=
  match Date_getTime a, Date_getTime b with
  | Some x, Some y => bool_decide (x ≤ y)%Z
  | _, _ => false
  end.

Definition matchesSearch (filters : FilterOptions) (item : Item) : bool :=
  let searchLower := JsString.toLowerCase (f_search filters) in
  JsString.includes (JsString.toLowerCase (title item)) searchLower
  || JsString.includes (JsString.toLowerCase (description item)) searchLower
  || JsString.includes (JsString.toLowerCase (location item)) searchLower
  || JsString.includes (JsString.toLowerCase (contactName item)) searchLower.

Definition matchesCategory (filters : FilterOptions) (item : Item) : bool :=
  bool_decide (f_category filters = "All")
  || bool_decide (category item = f_category filters).

Definition matchesLocation (filters : FilterOptions) (item : Item) : bool :=
  bool_decide (f_location filters = "All")
  || bool_decide (location item = f_location filters).

Definition matchesType (filters : FilterOptions) (item : Item) : bool :=
  bool_decide (f_type filters = "all")
  || bool_decide (type item = f_type filters).

Definition matchesStatus (filters : FilterOptions) (item : Item) : bool :=
  bool_decide (f_status filters = "all")
  || bool_decide (status item = f_status filters).

Definition matchesDateFrom (filters : FilterOptions) (item : Item) : bool :=
  negb (JsString.truthy (f_dateFrom filters))
  || date_ge (date item) (f_dateFrom filters).

Definition matchesDateTo (filters : FilterOptions) (item : Item) : bool :=
  negb (JsString.truthy (f_dateTo filters))
  || date_le (date item) (f_dateTo filters).

Definition keep (filters : FilterOptions) (item : Item) : bool :=
  matchesSearch filters item
  && matchesCategory filters item
  && matchesLocation filters item
  && matchesType filters item
  && matchesStatus filters item
  && matchesDateFrom filters item
  && matchesDateTo filters item.

Definition filteredItems (filters : FilterOptions) (items : list Item) : list Item :=
  filter (λ item, keep filters item) items.

(** The comparator [(a, b) => getTime(b.createdAt) - getTime(a.createdAt)]. *)
Definition newestFirst (a b : Item) : option Z :=
  match Date_getTime (createdAt b), Date_getTime (createdAt a) with
  | Some tb, Some ta => Some (tb - ta)%Z
  | _, _ => None
  end.

Definition sortedItems (filters : FilterOptions) (items : list Item) : list Item :=
  JsArray.sort newestFirst (filteredItems filters items).

End WithDate.

(** *** Pages and the heading *)

Definition itemsPerPage : Z := 9.

(** [Math.ceil(sortedItems.length / itemsPerPage)]; the quotient of a length
    by nine is taken exactly. *)
Definition totalPages (sortedItems : list Item) : Z :=
  ((Z.of_nat (length sortedItems) + itemsPerPage - 1) / itemsPerPage)%Z.

Definition startIndex (currentPage : Z) : Z := ((currentPage - 1) * itemsPerPage)%Z.

Definition endIndex (currentPage : Z) : Z := (startIndex currentPage + itemsPerPage)%Z.

Definition currentItems (sortedItems : list Item) (currentPage : Z) : list Item :=
  JsArray.slice (startIndex currentPage) (endIndex currentPage) sortedItems.

(** The page number of the [i]-th pagination link. *)
Definition pageNum (currentPage totalPages i : Z) : Z :=
  if (totalPages <=? 5)%Z then (i + 1)%Z
  else if (currentPage <=? 3)%Z then (i + 1)%Z
  else if (currentPage >=? totalPages - 2)%Z then (totalPages - 4 + i)%Z
  else (currentPage - 2 + i)%Z.

(** [Array.from({ length: Math.min(5, totalPages) }, (_, i) => pageNum)] *)
Definition pageNumbers (currentPage totalPages : Z) : list Z :=
  pageNum currentPage totalPages <$> seqZ 0 (Z.min 5 totalPages).

(** [p => Math.max(1, p - 1)] and [p => Math.min(totalPages, p + 1)] *)
Definition previousPage (p : Z) : Z := Z.max 1 (p - 1).

Definition nextPage (totalPages p : Z) : Z := Z.min totalPages (p + 1).

(** What a click in the pagination bar is. *)
Inductive click : Type :=
  | Previous
  | Next
  | Link (i : nat).

(** The page after a click; a link that is not there changes nothing. *)
Definition clicked (totalPages : Z) (currentPage : Z) (c : click) : Z :=
  match c with
  | Previous => previousPage currentPage
  | Next => nextPage totalPages currentPage
  | Link i => default currentPage (pageNumbers currentPage totalPages !! i)
  end.

(** The heading over the result list. *)
Definition heading (filters : FilterOptions) : string :=
  if JsString.truthy (f_search filters)
     || bool_decide (f_category filters ≠ "All")
     || bool_decide (f_location filters ≠ "All")
     || bool_decide (f_type filters ≠ "all")
     || bool_decide (f_status filters ≠ "all")
     || JsString.truthy (f_dateFrom filters)
     || JsString.truthy (f_dateTo filters)
  then "Search Results" else "All Items".

End ItemList.

(** ** ISO 8601 date strings

    The application writes [date] as [YYYY-MM-DD] (an [<input type="date">])
    and [createdAt] with [Date.prototype.toISOString].  This module gives
    [Date.parse] on those two shapes and [toISOString]; it is the instance of
    the host functions used in the examples.  Time values are milliseconds
    since the epoch. *)

Module IsoDate.

Definition daysFromCivil (y m d : Z) : Z :=
  let y' := if (m <=? 2)%Z then (y - 1)%Z else y in
  let era := (y' / 400)%Z in
  let yoe := (y' - era * 400)%Z in
  let mp := ((m + 9) mod 12)%Z in
  let doy := ((153 * mp + 2) / 5 + d - 1)%Z in
  let doe := (yoe * 365 + yoe / 4 - yoe / 100 + doy)%Z in
  (era * 146097 + doe - 719468)%Z.

Definition civilFromDays (z : Z) : Z * Z * Z :=
  let z' := (z + 719468)%Z in
  let era := (z' / 146097)%Z in
  let doe := (z' - era * 146097)%Z in
  let yoe := ((doe - doe / 1460 + doe / 36524 - doe / 146096) / 365)%Z in
  let doy := (doe - (365 * yoe + yoe / 4 - yoe / 100))%Z in
  let mp := ((5 * doy + 2) / 153)%Z in
  let d := (doy - (153 * mp + 2) / 5 + 1)%Z in
  let m := if (mp <? 10)%Z then (mp + 3)%Z else (mp - 9)%Z in
  let y := (yoe + era * 400)%Z in
  (if (m <=? 2)%Z then (y + 1)%Z else y, m, d).

(** The calendar part [YYYY-MM-DD]; a day that does not exist is rejected. *)
Definition parseDay (s : string) : option Z :=
  match JsString.digits (substring 0 4 s), JsString.digits (substring 5 2 s),
        JsString.digits (substring 8 2 s) with
  | Some y, Some m, Some d =>
      if bool_decide (substring 4 1 s = "-" ∧ substring 7 1 s = "-"
                      ∧ civilFromDays (daysFromCivil y m d) = (y, m, d))
      then Some (daysFromCivil y m d) else None
  | _, _, _ => None
  end.

(** The time part [THH:mm:ss.sssZ]. *)
Definition parseTime (s : string) : option Z :=
  match JsString.digits (substring 1 2 s), JsString.digits (substring 4 2 s),
        JsString.digits (substring 7 2 s), JsString.digits (substring 10 3 s) with
  | Some h, Some mi, Some sec, Some ms =>
      if bool_decide (substring 0 1 s = "T" ∧ substring 3 1 s = ":"
                      ∧ substring 6 1 s = ":" ∧ substring 9 1 s = "."
                      ∧ substring 13 1 s = "Z" ∧ String.length s = 14
                      ∧ (h < 24)%Z ∧ (mi < 60)%Z ∧ (sec < 60)%Z)
      then Some (((h * 60 + mi) * 60 + sec) * 1000 + ms)%Z else None
  | _, _, _, _ => None
  end.

Definition getTime (s : string) : option Z :=
  match parseDay (substring 0 10 s) with
  | Some day =>
      if bool_decide (String.length s = 10) then Some (day * 86400000)%Z
      else match parseTime (substring 10 14 s) with
           | Some ms =>
               if bool_decide (String.length s = 24)
               then Some (day * 86400000 + ms)%Z else None
           | None => None
           end
  | None => None
  end.

Fixpoint zeros (n : nat) : string :=
  match n with O => "" | S n' => String "0" (zeros n') end.

(** [n] in decimal, padded with zeros to at least [w] digits. *)
Definition padded (w : nat) (n : Z) : string :=
  let s := pretty (Z.to_N n) in zeros (w - String.length s) +:+ s.

(** [new Date(t).toISOString()] for a time value in the years 0000-9999. *)
Definition toISOString (t : Z) : string :=
  let day := (t / 86400000)%Z in
  let ms := (t mod 86400000)%Z in
  let '(y, m, d) := civilFromDays day in
  padded 4 y +:+ "-" +:+ padded 2 m +:+ "-" +:+ padded 2 d +:+ "T"
  +:+ padded 2 (ms / 3600000) +:+ ":" +:+ padded 2 (ms / 60000 mod 60) +:+ ":"
  +:+ padded 2 (ms / 1000 mod 60) +:+ "." +:+ padded 3 (ms mod 1000) +:+ "Z".

End IsoDate.

(** ** Completions

    A call either returns a value or throws; for an [async] function these are
    the fulfilled and the rejected promise. *)

Inductive completion (A : Type) : Type :=
  | Normal (a : A)
  | Throw (message : string).
Arguments Normal {A} a.
Arguments Throw {A} message.

(** ** [ApiService] *)

Module ApiService.

Section WithBackend.
(** [fetchJson] on [`${API_BASE_URL}/search/suggestions?q=...`]: what the
    backend answers for the query, or the error [fetchJson] throws. *)
Variable fetchSuggestions : string → completion (list string).

Definition getSearchSuggestions (query : string) : completion (list string) :=
  if String.length query <? 2 then Normal []
  else fetchSuggestions query.

End WithBackend.

(** *** [fetchJson] *)

Section FetchJson.
(** [J] is what a response body parses to, [T] the type the caller expects.
    The bodies are objects, as the backend sends them: [errorOf j] is the
    text of [j.error], [None] when the body has no such property;
    [asResult j] is [j] seen as a [T]. *)
Context {J T : Type}.
Variable errorOf : J → option string.
Variable asResult : J → T.

Record Response := mkResponse {
  ok : bool;
  status : nat;
  json : completion J          (* response.json() *)
}.

(** [fetched] is what [await fetch(url, ...)] gives: a response, or the
    error of a request that did not complete. *)
Definition fetchJson (fetched : completion Response) : completion T :=
  match fetched with
  | Throw message => Throw message
  | Normal response =>
      if negb (ok response) then
        let error : option string :=
          match json response with
          | Normal j => errorOf j
          | Throw _ => Some "Unknown error"
          end in
        Throw (match error with
               | Some text =>
                   if JsString.truthy text then text
                   else "HTTP error! status: " +:+ pretty (status response)
               | None => "HTTP error! status: " +:+ pretty (status response)
               end)
      else
        match json response with
        | Normal j => Normal (asResult j)
        | Throw message => Throw message
        end
  end.

End FetchJson.

Record SimilarItem := mkSimilarItem {
  s_id : string;
  s_title : string;
  s_image : string;
  s_status : string;
  s_type : string;
  s_similarity : Z
}.

(** What [addItem] resolves to. *)
Record AddResult := mkAddResult {
  r_item : Item;
  r_similarItems : list SimilarItem;
  r_hasMatch : bool
}.

End ApiService.

(** ** [ReportItemForm] *)

Module ReportItemForm.

Record FormData := mkFormData {
  fd_title : string;
  fd_description : string;
  fd_category : string;
  fd_location : string;
  fd_date : string;
  fd_type : string;
  fd_status : string;
  fd_contactName : string;
  fd_contactInfo : string;
  fd_image : string
}.

(** [s.match(/^\d{10}$/)] is not [null]. *)
Definition matchesTenDigits (s : string) : bool :=
  bool_decide (String.length s = 10) && JsString.allDigits s.

(** [newErrors]: the own keys of the object with their messages, in the order
    the assignments create them. *)
Abbreviation Errors := (list (string * string)).

Definition require (field message value : string) (errs : Errors) : Errors :=
  if negb (JsString.truthy (JsString.trim value))
  then errs ++ [(field, message)] else errs.

Definition checkContactInfo (value : string) (errs : Errors) : Errors :=
  if negb (JsString.truthy (JsString.trim value))
  then errs ++ [("contactInfo", "Contact info is required")]
  else if negb (JsString.includes value "@") && negb (matchesTenDigits value)
  then errs ++ [("contactInfo", "Please provide a valid email or 10-digit phone number")]
  else errs.

Definition newErrors (formData : FormData) : Errors :=
  checkContactInfo (fd_contactInfo formData)
    (require "contactName" "Contact name is required" (fd_contactName formData)
      (require "description" "Description is required" (fd_description formData)
        (require "title" "Title is required" (fd_title formData) []))).

(** [validateForm]: the errors handed to [setErrors] and the returned flag
    [Object.keys(newErrors).length === 0]. *)
Definition validateForm (formData : FormData) : Errors * bool :=
  let errs := newErrors formData in
  (errs, bool_decide (length (map fst errs) = 0)).

(** *** [handleSubmit] *)

Section WithClock.
(** [new Date(t).toISOString()] *)
Variable toISOString : Z → string.

(** The form after a reset; [now] is the time [new Date()] reads. *)
Definition emptyForm (now : Z) : FormData :=
  {| fd_title := "";
     fd_description := "";
     fd_category := "Electronics";
     fd_location := "Library - 2nd Floor";
     fd_date := JsString.splitHead "T" (toISOString now);
     fd_type := "found";
     fd_status := "active";
     fd_contactName := "";
     fd_contactInfo := "";
     fd_image := "" |}.

(** What a submit leaves behind: the data handed to [onSubmit], if any, the
    state of the form, and the error toast, if any. *)
Record Submitted := mkSubmitted {
  onSubmit : option FormData;
  formData' : FormData;
  imagePreview' : string;
  errors' : Errors;
  toastError : option string
}.

Definition handleSubmit (now : Z) (formData : FormData) (imagePreview : string) : Submitted :=
  let '(errs, valid) := validateForm formData in
  if negb valid then
    {| onSubmit := None; formData' := formData; imagePreview' := imagePreview;
       errors' := errs; toastError := Some "Please fix the errors in the form" |}
  else
    {| onSubmit := Some formData; formData' := emptyForm now; imagePreview' := "";
       errors' := []; toastError := None |}.

End WithClock.

End ReportItemForm.

(** ** Ordinary objects used as string-keyed tables

    [const o: Record<string, number> = {}] is an ordinary object whose
    prototype is [Object.prototype].  A table lists its own properties in the
    order they were created. *)

Module JsObject.

(** What a table slot can hold here: a number, or something that is not one
    (an inherited function, or the string that adding [1] to it gives); the
    latter is truthy and converts to [NaN]. *)
Inductive value : Type :=
  | VNumber (n : nat)
  | VOther.

#[global] Instance value_eq_dec : EqDecision value.
Proof. solve_decision. Defined.

Abbreviation table := (list (string * value)).

(** The property names every object inherits from [Object.prototype]. *)
Definition prototypeKeys : list string :=
  [ "constructor"; "hasOwnProperty"; "isPrototypeOf"; "propertyIsEnumerable";
    "toLocaleString"; "toString"; "valueOf"; "__proto__";
    "__defineGetter__"; "__defineSetter__"; "__lookupGetter__"; "__lookupSetter__" ].

Fixpoint own (o : table) (k : string) : option value :=
  match o with
  | [] => None
  | (k', v) :: o' => if bool_decide (k' = k) then Some v else own o' k
  end.

(** [o[k]]; [None] is [undefined]. *)
Definition get (o : table) (k : string) : option value :=
  match own o k with
  | Some v => Some v
  | None => if bool_decide (k ∈ prototypeKeys) then Some VOther else None
  end.

Fixpoint assign (o : table) (k : string) (v : value) : table :=
  match o with
  | [] => [(k, v)]
  | (k', v') :: o' =>
      if bool_decide (k' = k) then (k, v) :: o' else (k', v') :: assign o' k v
  end.

(** [o[k] = v] for a primitive [v]: the [__proto__] setter ignores it, any
    other key becomes (or stays) an own property. *)
Definition set (o : table) (k : string) (v : value) : table :=
  if bool_decide (k = "__proto__") then o else assign o k v.

(** [(x || 0) + 1] *)
Definition orZeroPlusOne (x : option value) : value :=
  match x with
  | None => VNumber 1
  | Some (VNumber n) => VNumber (n + 1)
  | Some VOther => VOther
  end.

(** [k] is an array index: the canonical decimal form of an integer below
    [2^32 - 1]. *)
Definition arrayIndex (k : string) : option Z :=
  match JsString.digits k with
  | Some n =>
      if bool_decide (pretty (Z.to_N n) = k ∧ (n < 4294967295)%Z)
      then Some n else None
  | None => None
  end.

Definition isIndexKey (e : string * value) : bool :=
  match arrayIndex (fst e) with Some _ => true | None => false end.

Definition byIndex (a b : string * value) : option Z :=
  match arrayIndex (fst a), arrayIndex (fst b) with
  | Some i, Some j => Some (i - j)%Z
  | _, _ => None
  end.

(** [Object.entries(o)]: array-index keys in ascending numeric order, then
    the other keys in creation order. *)
Definition entries (o : table) : list (string * value) :=
  JsArray.sort byIndex (filter (λ e, isIndexKey e) o)
  ++ filter (λ e, ¬ isIndexKey e) o.

(** [b - a] on two slots. *)
Definition minus (b a : value) : option Z :=
  match b, a with
  | VNumber y, VNumber x => Some (Z.of_nat y - Z.of_nat x)%Z
  | _, _ => None
  end.

End JsObject.

(** ** Number values

    An ECMAScript number is an IEEE 754 binary64 value.  A finite one is
    represented by the rational it denotes.  An arithmetic operation yields
    the exact result rounded to the nearest binary64 value, the one with the
    even significand of two nearest ones: 53 significant bits for a
    magnitude from [2^-1022] on, multiples of [2^-1074] below, and an
    infinity from [2^1024] on. *)

Module Binary64.

Definition pow2 (e : Z) : Q := Qpower (2 # 1) e.

(** The integer part of the binary logarithm of [q], for [0 < q]. *)
Definition exponent (q : Q) : Z :=
  let e := (Z.log2 (Qnum q) - Z.log2 (Z.pos (Qden q)))%Z in
  if Qle_bool (pow2 e) q then e else (e - 1)%Z.

(** The integer nearest to [x], the even one of two nearest ones. *)
Definition roundHalfEven (x : Q) : Z :=
  let f := Qfloor x in
  match (x - inject_Z f ?= 1 # 2)%Q with
  | Lt => f
  | Gt => (f + 1)%Z
  | Eq => if Z.even f then f else (f + 1)%Z
  end.

(** The binary64 value nearest to [q], for [0 < q]; [None] when that is
    the infinity. *)
Definition roundPositive (q : Q) : option Q :=
  let e := Z.max (exponent q) (-1022) in
  let r := Qred (inject_Z (roundHalfEven (q * pow2 (52 - e))) * pow2 (e - 52)) in
  if Qle_bool (pow2 1024) r then None else Some r.

Definition round (q : Q) : option Q :=
  match (q ?= 0)%Q with
  | Eq => Some 0%Q
  | Gt => roundPositive q
  | Lt => Qopp <$> roundPositive (- q)
  end.

End Binary64.

(** ** [Dashboard.calculateLocalData]

    Counts are natural numbers: lengths of arrays, which are below [2^32]
    and so are binary64 values as they are.  The claim rate is the only
    fractional number; its quotient, its product and the number read back
    from its text are rounded as binary64 arithmetic rounds them. *)

Module Dashboard.

Import JsObject.

(** [Infinity] stands for an infinity of either sign; the numbers of the
    dashboard are never negative. *)
Inductive number : Type :=
  | Finite (q : Q)
  | NaN
  | Infinity.

(** The number an operation yields whose exact result is [q]. *)
Definition rounded (q : Q) : number :=
  match Binary64.round q with
  | Some r => Finite r
  | None => Infinity
  end.

(** [a / b] on two counts. *)
Definition divide (a b : nat) : number :=
  match b with
  | O => match a with O => NaN | S _ => Infinity end
  | S _ => rounded (Z.of_nat a # Pos.of_nat b)
  end.

(** [x * k] for an integer literal [k]. *)
Definition times (x : number) (k : Z) : number :=
  match x with
  | Finite q => rounded (q * (k # 1))
  | NaN => NaN
  | Infinity => if (k =? 0)%Z then NaN else Infinity
  end.

(** The text [x.toFixed(1)] prints, for [x] below [10^21]: the decimal with
    one fractional digit nearest to the exact value of [x], given in tenths;
    of two nearest ones the one of larger magnitude. *)
Inductive fixedText : Type :=
  | Tenths (n : Z)
  | NaNText
  | InfinityText.

Definition toFixed1 (x : number) : fixedText :=
  match x with
  | Finite q =>
      if Qle_bool 0 q then Tenths (Qfloor (q * (10 # 1) + (1 # 2)))
      else Tenths (- Qfloor (- q * (10 # 1) + (1 # 2)))
  | NaN => NaNText
  | Infinity => InfinityText
  end.

(** [parseFloat] on what [claimRate] can be: the text of [toFixed], read
    back as the nearest number, or the number [0]. *)
Definition parseFloat (v : fixedText + number) : number :=
  match v with
  | inl (Tenths n) => rounded (n # 10)
  | inl NaNText => NaN
  | inl InfinityText => Infinity
  | inr x => x
  end.

Record Stats := mkStats {
  totalItems : nat;
  lostItems : nat;
  foundItems : nat;
  activeItems : nat;
  claimedItems : nat;
  pendingItems : nat;
  claimRate : number
}.

Record DashboardData := mkDashboardData {
  stats : Stats;
  topCategories : list (string * value);   (* { name, count } *)
  topLocations : list (string * value);
  mostLostItems : list (string * value);
  itemsByDate : list (Z * Z)
}.

(** [items.filter(item => item.f === v).length] *)
Definition countWhere (f : Item → string) (v : string) (items : list Item) : nat :=
  length (filter (λ item, f item = v) items).

(** [items.forEach(item => { o[item.f] = (o[item.f] || 0) + 1; })] from [{}] *)
Definition tally (f : Item → string) (items : list Item) : table :=
  fold_left (λ o item, set o (f item) (orZeroPlusOne (get o (f item)))) items [].

(** [Object.entries(o).sort((a, b) => b[1] - a[1]).slice(0, 10).map(...)] *)
Definition top (o : table) : list (string * value) :=
  JsArray.slice0 10 (JsArray.sort (λ a b, minus (snd b) (snd a)) (entries o)).

Definition calculateLocalData (items : list Item) : DashboardData :=
  let totalItems := length items in
  let lostItems := countWhere type "lost" items in
  let foundItems := countWhere type "found" items in
  let activeItems := countWhere status "active" items in
  let claimedItems := countWhere status "claimed" items in
  let pendingItems := countWhere status "pending" items in
  let claimRate : fixedText + number :=
    if 0 <? totalItems
    then inl (toFixed1 (times (divide claimedItems totalItems) 100))
    else inr (Finite 0) in
  let categoryCount := tally category items in
  let topCategories := top categoryCount in
  let locationCount := tally location items in
  let topLocations := top locationCount in
  {| stats := {| totalItems := totalItems;
                 lostItems := lostItems;
                 foundItems := foundItems;
                 activeItems := activeItems;
                 claimedItems := claimedItems;
                 pendingItems := pendingItems;
                 claimRate := parseFloat claimRate |};
     topCategories := topCategories;
     topLocations := topLocations;
     mostLostItems := [];
     itemsByDate := [] |}.

(** *** Chart data *)

(** [name.length > 15 ? name.substring(0, 15) + '...' : name] *)
Definition shortLabel (name : string) : string :=
  if 15 <? String.length name then substring 0 15 name +:+ "..." else name.

(** [labels] and [data] of the location chart. *)
Definition locationsChartData (topLocations : list (string * value))
    : list string * list value :=
  ((λ l, shortLabel (fst l)) <$> JsArray.slice0 5 topLocations,
   snd <$> JsArray.slice0 5 topLocations).

Definition categoriesChartData (topCategories : list (string * value))
    : list string * list value :=
  (fst <$> JsArray.slice0 5 topCategories, snd <$> JsArray.slice0 5 topCategories).

(** The number a slot stands for in a sum; what is not a number counts as
    nothing. *)
Definition countOf (v : value) : nat :=
  match v with VNumber n => n | VOther => 0 end.

End Dashboard.

(** ** The browser-storage item store ([src/utils/storage.ts]) *)

Module Storage.

(** [Partial<Item>]: [None] is a property the object does not have. *)
Record PartialItem := mkPartialItem {
  u_id : option string;
  u_title : option string;
  u_description : option string;
  u_category : option string;
  u_location : option string;
  u_date : option string;
  u_status : option string;
  u_type : option string;
  u_image : option string;
  u_contactName : option string;
  u_contactInfo : option string;
  u_createdAt : option string
}.

(** [Omit<Item, 'id' | 'createdAt'>] *)
Record NewItem := mkNewItem {
  n_title : string;
  n_description : string;
  n_category : string;
  n_location : string;
  n_date : string;
  n_status : string;
  n_type : string;
  n_image : option string;
  n_contactName : string;
  n_contactInfo : string
}.

(** [{ ...item, ...updates }] *)
Definition spread (item : Item) (updates : PartialItem) : Item :=
  {| id := default (id item) (u_id updates);
     title := default (title item) (u_title updates);
     description := default (description item) (u_description updates);
     category := default (category item) (u_category updates);
     location := default (location item) (u_location updates);
     date := default (date item) (u_date updates);
     status := default (status item) (u_status updates);
     type := default (type item) (u_type updates);
     image := match u_image updates with Some i => Some i | None => image item end;
     contactName := default (contactName item) (u_contactName updates);
     contactInfo := default (contactInfo item) (u_contactInfo updates);
     createdAt := default (createdAt item) (u_createdAt updates) |}.

(** The state the module works on.  [localStorage] is the entry under
    [STORAGE_KEY]: absent, or the JSON text of an item list, represented by
    the list it encodes ([JSON.parse] after [JSON.stringify] gives the items
    back).  [mockItems] is the array exported by [./mockData]; [getItems]
    hands out that very array, so a caller that mutates it changes it for
    everyone. *)
Record State := mkState {
  window : bool;                        (* typeof window !== 'undefined' *)
  localStorage : option (list Item);
  mockItems : list Item
}.

Definition withStorage (s : State) (l : list Item) : State :=
  {| window := window s; localStorage := Some l; mockItems := mockItems s |}.

Definition withMock (s : State) (l : list Item) : State :=
  {| window := window s; localStorage := localStorage s; mockItems := l |}.

(** An [Item[]] value a function holds: the shared [mockItems] array, or an
    array of its own. *)
Inductive array : Type :=
  | TheMockItems
  | Own (l : list Item).

Definition elements (s : State) (a : array) : list Item :=
  match a with
  | TheMockItems => mockItems s
  | Own l => l
  end.

(** Computations on the state that return or throw. *)
Definition M (A : Type) : Type := State → completion A * State.

Definition ret {A} (a : A) : M A := λ s, (Normal a, s).

Definition bind {A B} (m : M A) (k : A → M B) : M B :=
  λ s, match m s with
       | (Normal a, s') => k a s'
       | (Throw e, s') => (Throw e, s')
       end.

Notation "'do' x <- m ; k" := (bind m (λ x, k))
  (at level 10, x name, m at level 100, k at level 200).

(** In-place changes of an array: the shared one changes in the state. *)
Definition mutate (f : list Item → list Item) (a : array) : M array :=
  λ s, match a with
       | TheMockItems => (Normal TheMockItems, withMock s (f (mockItems s)))
       | Own l => (Normal (Own (f l)), s)
       end.

Definition read (a : array) : M (list Item) := λ s, (Normal (elements s a), s).

Definition getItems : M array :=
  λ s, if negb (window s) then (Normal TheMockItems, s)
       else match localStorage s with
            | None => (Normal TheMockItems, withStorage s (mockItems s))
            | Some stored => (Normal (Own stored), s)
            end.

Definition saveItems (items : array) : M unit :=
  λ s, if window s then (Normal (), withStorage s (elements s items))
       else (Normal (), s).

(** [items.findIndex(p)]; [-1] when no element satisfies [p]. *)
Definition findIndex (P : Item → Prop) `{∀ x, Decision (P x)} (l : list Item) : Z :=
  match list_find P l with
  | Some (i, _) => Z.of_nat i
  | None => (-1)%Z
  end.

Section WithClock.
(** [new Date(t).toISOString()] *)
Variable toISOString : Z → string.

(** [addItem]: [now] is what [Date.now()] reads and [now'] the time of the
    [new Date()] that follows. *)
Definition addItem (now now' : Z) (item : NewItem) : M Item :=
  do items <- getItems;
  let newItem :=
    {| id := pretty now;
       title := n_title item;
       description := n_description item;
       category := n_category item;
       location := n_location item;
       date := n_date item;
       status := n_status item;
       type := n_type item;
       image := n_image item;
       contactName := n_contactName item;
       contactInfo := n_contactInfo item;
       createdAt := toISOString now' |} in
  do items <- mutate (cons newItem) items;
  do _ <- saveItems items;
  ret newItem.

End WithClock.

(** [items[index] = { ...items[index], ...updates }] *)
Definition assignSpread (index : nat) (updates : PartialItem) (l : list Item) : list Item :=
  match l !! index with
  | Some item => <[index := spread item updates]> l
  | None => l
  end.

Definition updateItem (id0 : string) (updates : PartialItem) : M unit :=
  do items <- getItems;
  do l <- read items;
  let index := findIndex (λ item, id item = id0) l in
  if bool_decide (index ≠ (-1)%Z) then
    do items <- mutate (assignSpread (Z.to_nat index) updates) items;
    saveItems items
  else ret ().

Definition deleteItem (id0 : string) : M unit :=
  do items <- getItems;
  do l <- read items;
  let filtered := Own (filter (λ item, id item ≠ id0) l) in
  saveItems filtered.

(** The item list the store holds: what [getItems] would return. *)
Definition current (s : State) : list Item :=
  if window s then default (mockItems s) (localStorage s) else mockItems s.

(** The state in which the module is loaded: nothing stored yet, and
    [mockItems] is the dataset of [./mockData]. *)
Definition initial (hasWindow : bool) (mockData : list Item) : State :=
  {| window := hasWindow; localStorage := None; mockItems := mockData |}.

(** The calls a client of the module can make. *)
Inductive call : Type :=
  | GetItems
  | SaveItems (items : list Item)
  | AddItem (now now' : Z) (item : NewItem)
  | UpdateItem (id0 : string) (updates : PartialItem)
  | DeleteItem (id0 : string).

Definition run (toISOString : Z → string) (c : call) (s : State) : State :=
  match c with
  | GetItems => snd (getItems s)
  | SaveItems items => snd (saveItems (Own items) s)
  | AddItem now now' item => snd (addItem toISOString now now' item s)
  | UpdateItem id0 updates => snd (updateItem id0 updates s)
  | DeleteItem id0 => snd (deleteItem id0 s)
  end.

Definition runAll (toISOString : Z → string) (cs : list call) (s : State) : State :=
  fold_left (λ s c, run toISOString c s) cs s.

End Storage.

(** ** [SearchFilters]: the filter panel *)

Module SearchFilters.

(** The filters [handleReset] installs. *)
Definition handleReset : FilterOptions :=
  {| f_search := ""; f_category := "All"; f_location := "All";
     f_type := "all"; f_status := "all"; f_dateFrom := ""; f_dateTo := "" |}.

Definition hasActiveFilters (filters : FilterOptions) : bool :=
  bool_decide (f_category filters ≠ "All")
  || bool_decide (f_location filters ≠ "All")
  || bool_decide (f_type filters ≠ "all")
  || bool_decide (f_status filters ≠ "all")
  || JsString.truthy (f_dateFrom filters)
  || JsString.truthy (f_dateTo filters).

(** The change handlers: [{ ...filters, category: value }] and the like. *)
Definition withCategory (filters : FilterOptions) (value : string) : FilterOptions :=
  {| f_search := f_search filters; f_category := value;
     f_location := f_location filters; f_type := f_type filters;
     f_status := f_status filters; f_dateFrom := f_dateFrom filters;
     f_dateTo := f_dateTo filters |}.

Definition withLocation (filters : FilterOptions) (value : string) : FilterOptions :=
  {| f_search := f_search filters; f_category := f_category filters;
     f_location := value; f_type := f_type filters;
     f_status := f_status filters; f_dateFrom := f_dateFrom filters;
     f_dateTo := f_dateTo filters |}.

Definition withType (filters : FilterOptions) (value : string) : FilterOptions :=
  {| f_search := f_search filters; f_category := f_category filters;
     f_location := f_location filters; f_type := value;
     f_status := f_status filters; f_dateFrom := f_dateFrom filters;
     f_dateTo := f_dateTo filters |}.

Definition withStatus (filters : FilterOptions) (value : string) : FilterOptions :=
  {| f_search := f_search filters; f_category := f_category filters;
     f_location := f_location filters; f_type := f_type filters;
     f_status := value; f_dateFrom := f_dateFrom filters;
     f_dateTo := f_dateTo filters |}.

Definition withDateFrom (filters : FilterOptions) (value : string) : FilterOptions :=
  {| f_search := f_search filters; f_category := f_category filters;
     f_location := f_location filters; f_type := f_type filters;
     f_status := f_status filters; f_dateFrom := value;
     f_dateTo := f_dateTo filters |}.

Definition withDateTo (filters : FilterOptions) (value : string) : FilterOptions :=
  {| f_search := f_search filters; f_category := f_category filters;
     f_location := f_location filters; f_type := f_type filters;
     f_status := f_status filters; f_dateFrom := f_dateFrom filters;
     f_dateTo := value |}.

End SearchFilters.

(** ** [SearchWithSuggestions]: the quick-search box *)

Module SearchWithSuggestions.

(** What the effect on [value] sets: [suggestions] and [showSuggestions].
    The debounce delay is not part of the model. *)
Definition fetchSuggestions (backend : string → completion (list string))
    (value : string) : list string * bool :=
  if 2 <=? String.length value then
    match ApiService.getSearchSuggestions backend value with
    | Normal results => (results, 0 <? length results)
    | Throw _ => ([], false)
    end
  else ([], false).

End SearchWithSuggestions.

(** ** [App]: the item list on screen and the handlers that reload it *)

Module App.

Inductive toast : Type :=
  | ToastSuccess (message : string)
  | ToastError (message : string)
  | ToastInfo (message : string).

Record State := mkState {
  items : list Item;
  loading : bool;
  activeTab : string;
  toasts : list toast          (* the toasts shown so far, oldest first *)
}.

Definition setItems (st : State) (l : list Item) : State :=
  {| items := l; loading := loading st; activeTab := activeTab st; toasts := toasts st |}.

Definition setLoading (st : State) (b : bool) : State :=
  {| items := items st; loading := b; activeTab := activeTab st; toasts := toasts st |}.

Definition setActiveTab (st : State) (tab : string) : State :=
  {| items := items st; loading := loading st; activeTab := tab; toasts := toasts st |}.

Definition show (st : State) (t : toast) : State :=
  {| items := items st; loading := loading st; activeTab := activeTab st;
     toasts := toasts st ++ [t] |}.

(** [error.message || fallback] *)
Definition messageOr (message fallback : string) : string :=
  if JsString.truthy message then message else fallback.

(** [loadItems]; [answer] is what [apiService.getItems()] settles to. *)
Definition loadItems (answer : completion (list Item)) (st : State) : State :=
  let st := setLoading st true in
  let st :=
    match answer with
    | Normal apiItems => setItems st apiItems
    | Throw _ =>
        setItems (show st (ToastError "Failed to load items. Using fallback mode.")) []
    end in
  setLoading st false.

(** [handleAddItem]; [added] is what [apiService.addItem] settles to and
    [answer] what the reload gets. *)
Definition handleAddItem (added : completion ApiService.AddResult)
    (answer : completion (list Item)) (st : State) : State :=
  match added with
  | Normal result =>
      let st := show st (ToastSuccess "Item reported successfully!") in
      let st :=
        if ApiService.r_hasMatch result
           && (0 <? length (ApiService.r_similarItems result))
        then show st (ToastInfo ("Potential match found! "
                                 +:+ pretty (length (ApiService.r_similarItems result))
                                 +:+ " similar item(s) detected."))
        else st in
      let st := loadItems answer st in
      setActiveTab st "browse"
  | Throw message => show st (ToastError (messageOr message "Failed to add item"))
  end.

Definition handleUpdateStatus (updated : completion Item)
    (answer : completion (list Item)) (st : State) : State :=
  match updated with
  | Normal _ =>
      loadItems answer (show st (ToastSuccess "Item status updated successfully!"))
  | Throw message => show st (ToastError (messageOr message "Failed to update item"))
  end.

Definition handleDeleteItem (deleted : completion unit)
    (answer : completion (list Item)) (st : State) : State :=
  match deleted with
  | Normal _ => loadItems answer (show st (ToastSuccess "Item deleted successfully!"))
  | Throw message => show st (ToastError (messageOr message "Failed to delete item"))
  end.

(** The header search. *)
Definition searchFilteredItems (searchQuery : string) (l : list Item) : list Item :=
  if JsString.truthy searchQuery then
    filter (λ item : Item,
      let searchLower := JsString.toLowerCase searchQuery in
      JsString.includes (JsString.toLowerCase (title item)) searchLower
      || JsString.includes (JsString.toLowerCase (description item)) searchLower
      || JsString.includes (JsString.toLowerCase (location item)) searchLower
      || JsString.includes (JsString.toLowerCase (contactName item)) searchLower) l
  else l.

(** The [items] prop of [ItemList]: [searchQuery ? searchFilteredItems : items] *)
Definition browseItems (searchQuery : string) (l : list Item) : list Item :=
  if JsString.truthy searchQuery then searchFilteredItems searchQuery l else l.

(** What can happen: the initial load and the three actions, each with what
    the backend answers. *)
Inductive event : Type :=
  | Load (answer : completion (list Item))
  | Add (added : completion ApiService.AddResult) (answer : completion (list Item))
  | Update (updated : completion Item) (answer : completion (list Item))
  | Delete (deleted : completion unit) (answer : completion (list Item)).

Definition handle (st : State) (e : event) : State :=
  match e with
  | Load answer => loadItems answer st
  | Add added answer => handleAddItem added answer st
  | Update updated answer => handleUpdateStatus updated answer st
  | Delete deleted answer => handleDeleteItem deleted answer st
  end.

(** The item list the backend sent for the event, if it sent one that was
    asked for. *)
Definition received (e : event) : option (list Item) :=
  match e with
  | Load (Normal l) => Some l
  | Add (Normal _) (Normal l) => Some l
  | Update (Normal _) (Normal l) => Some l
  | Delete (Normal _) (Normal l) => Some l
  | _ => None
  end.

End App.

(** ** [AdminPanel]: the moderation buttons

    The panel calls the handler of [App] without awaiting it and shows its
    own toast right away, so that toast comes before those of the handler. *)

Module AdminPanel.

Definition handleApprove (updated : completion Item)
    (answer : completion (list Item)) (st : App.State) : App.State :=
  App.handleUpdateStatus updated answer
    (App.show st (App.ToastSuccess "Item approved and activated")).

Definition handleMarkClaimed (updated : completion Item)
    (answer : completion (list Item)) (st : App.State) : App.State :=
  App.handleUpdateStatus updated answer
    (App.show st (App.ToastSuccess "Item marked as claimed")).

Definition handleDelete (deleted : completion unit)
    (answer : completion (list Item)) (st : App.State) : App.State :=
  App.handleDeleteItem deleted answer
    (App.show st (App.ToastSuccess "Item deleted successfully")).

End AdminPanel.

(** ** The statements of the specification, as predicates *)

Module Spec.

(** [q] occurs in [s] when case is ignored: some stretch of [s] has the
    lower case of [q]. *)
Definition occursIgnoringCase (q s : string) : Prop :=
  ∃ pre mid post,
    s = pre +:+ mid +:+ post
    ∧ JsString.toLowerCase mid = JsString.toLowerCase q.

Definition textMatches (q : string) (item : Item) : Prop :=
  occursIgnoringCase q (title item)
  ∨ occursIgnoringCase q (description item)
  ∨ occursIgnoringCase q (location item)
  ∨ occursIgnoringCase q (contactName item).

(** Every character of [s] is white space. *)
Fixpoint blank (s : string) : Prop :=
  match s with
  | EmptyString => True
  | String c s' => JsString.isWhiteSpace c = true ∧ blank s'
  end.

(** [s] has the character [c]. *)
Fixpoint hasChar (c : ascii) (s : string) : Prop :=
  match s with
  | EmptyString => False
  | String c' s' => c' = c ∨ hasChar c s'
  end.

(** The payload of a creation, as an item with the given id and creation
    time. *)
Definition created (item : Storage.NewItem) (newId newCreatedAt : string) : Item :=
  {| id := newId;
     title := Storage.n_title item;
     description := Storage.n_description item;
     category := Storage.n_category item;
     location := Storage.n_location item;
     date := Storage.n_date item;
     status := Storage.n_status item;
     type := Storage.n_type item;
     image := Storage.n_image item;
     contactName := Storage.n_contactName item;
     contactInfo := Storage.n_contactInfo item;
     createdAt := newCreatedAt |}.

(** [s] has an at sign somewhere. *)
Definition containsAt (s : string) : Prop := hasChar "@" s.

(** Email-shaped, as the specification asks of the contact info, in the
    weakest reading: something in front of an at sign and something behind
    it.  Whatever else an email pattern asks, it asks that much. *)
Definition emailShaped (s : string) : Prop :=
  ∃ localPart domain,
    s = localPart +:+ "@" +:+ domain ∧ localPart ≠ "" ∧ domain ≠ "".

(** [s] is exactly ten decimal digits. *)
Definition tenDigits (s : string) : Prop :=
  String.length s = 10
  ∧ ∀ i c, String.get i s = Some c →
      c ∈ ["0"; "1"; "2"; "3"; "4"; "5"; "6"; "7"; "8"; "9"]%char.

Section WithDate.
Variable Date_getTime : string → option Z.

(** [bound ≤ d] on the time values of two date strings. *)
Definition notBefore (d bound : string) : Prop :=
  ∃ x y, Date_getTime d = Some x ∧ Date_getTime bound = Some y ∧ (y ≤ x)%Z.

(** The filters as the specification words them: for the four equality
    filters ["All"], ["all"] and the empty value all mean no constraint. *)
Definition unconstrained (v : string) : Prop := v = "All" ∨ v = "all" ∨ v = "".

Definition satisfiesAsClaimed (filters : FilterOptions) (item : Item) : Prop :=
  textMatches (f_search filters) item
  ∧ (unconstrained (f_category filters) ∨ category item = f_category filters)
  ∧ (unconstrained (f_location filters) ∨ location item = f_location filters)
  ∧ (unconstrained (f_type filters) ∨ type item = f_type filters)
  ∧ (unconstrained (f_status filters) ∨ status item = f_status filters)
  ∧ (f_dateFrom filters = "" ∨ notBefore (date item) (f_dateFrom filters))
  ∧ (f_dateTo filters = "" ∨ notBefore (f_dateTo filters) (date item)).

(** The filters as [ItemList] applies them: ["All"] is the sentinel of
    category and location, ["all"] that of type and status, and any other
    value, the empty one included, must be equalled. *)
Definition satisfies (filters : FilterOptions) (item : Item) : Prop :=
  textMatches (f_search filters) item
  ∧ (f_category filters = "All" ∨ category item = f_category filters)
  ∧ (f_location filters = "All" ∨ location item = f_location filters)
  ∧ (f_type filters = "all" ∨ type item = f_type filters)
  ∧ (f_status filters = "all" ∨ status item = f_status filters)
  ∧ (f_dateFrom filters = "" ∨ notBefore (date item) (f_dateFrom filters))
  ∧ (f_dateTo filters = "" ∨ notBefore (f_dateTo filters) (date item)).

(** [b] was not created after [a]. *)
Definition notNewer (a b : Item) : Prop :=
  ∃ ta tb, Date_getTime (createdAt a) = Some ta
           ∧ Date_getTime (createdAt b) = Some tb ∧ (tb ≤ ta)%Z.

(** Newest first: an item never comes before one created later. *)
Definition newestFirst (l : list Item) : Prop :=
  ∀ i j a b, (i < j)%nat → l !! i = Some a → l !! j = Some b → notNewer a b.

End WithDate.

(** The values of a field in first-encountered order, each once. *)
Fixpoint firstSeen (vals : list string) : list string :=
  match vals with
  | [] => []
  | k :: vals' => k :: filter (λ k', k' ≠ k) (firstSeen vals')
  end.

(** How often [k] occurs. *)
Definition occurrences (k : string) (vals : list string) : nat :=
  length (filter (λ v, v = k) vals).

(** The frequency count per field value, in first-encountered order. *)
Definition frequencies (vals : list string) : list (string * JsObject.value) :=
  (λ k, (k, JsObject.VNumber (occurrences k vals))) <$> firstSeen vals.

(** [b] does not have a larger count than [a]. *)
Definition notMoreFrequent (a b : string * JsObject.value) : Prop :=
  ∃ x y, snd a = JsObject.VNumber x ∧ snd b = JsObject.VNumber y ∧ y ≤ x.

(** [top] is the ranking of [counts]: the first ten entries of the
    arrangement of [counts] that is descending by count and keeps entries of
    equal count in the order they have in [counts]. *)
Definition ranking (counts top : list (string * JsObject.value)) : Prop :=
  ∃ ranked,
    top = take 10 ranked
    ∧ ranked ≡ₚ counts
    ∧ (∀ i j a b, i < j → ranked !! i = Some a → ranked !! j = Some b →
         notMoreFrequent a b)
    ∧ (∀ n, filter (λ e, snd e = JsObject.VNumber n) ranked
            = filter (λ e, snd e = JsObject.VNumber n) counts).

(** A field value that is an ordinary key of a table: not an array index and
    not a name inherited from [Object.prototype]. *)
Definition plainKey (k : string) : Prop :=
  JsObject.arrayIndex k = None ∧ k ∉ JsObject.prototypeKeys.

(** The item list after an update: the first item with the given id is
    replaced by its spread with the payload; without such an item the list is
    the same. *)
Definition replaceFirst (id0 : string) (updates : Storage.PartialItem)
    (l : list Item) : list Item :=
  match list_find (λ item, id item = id0) l with
  | Some (i, item) => <[i := Storage.spread item updates]> l
  | None => l
  end.

End Spec.

(** ** Sample data for the examples *)

Module Sample.

Definition backpack : Item :=
  {| id := "1"; title := "Blue Backpack";
     description := "Navy backpack with a laptop sleeve";
     category := "Bags"; location := "Library - 2nd Floor";
     date := "2024-03-04"; status := "active"; type := "lost"; image := None;
     contactName := "Alice Martin"; contactInfo := "alice@campus.edu";
     createdAt := "2024-03-04T09:15:00.000Z" |}.

Definition keys : Item :=
  {| id := "2"; title := "Car keys";
     description := "Two keys on a red lanyard";
     category := "Keys"; location := "Gym";
     date := "2024-03-06"; status := "claimed"; type := "found"; image := None;
     contactName := "Bob Lee"; contactInfo := "5551234567";
     createdAt := "2024-03-06T18:30:00.000Z" |}.

Definition calculator : Item :=
  {| id := "3"; title := "Graphing calculator";
     description := "Found under a desk, name tag BACKPACK club";
     category := "Electronics"; location := "Library - 2nd Floor";
     date := "2024-03-05"; status := "pending"; type := "found"; image := None;
     contactName := "Carol Diaz"; contactInfo := "carol@campus.edu";
     createdAt := "2024-03-05T12:00:00.000Z" |}.

Definition items : list Item := [backpack; keys; calculator].

(** The filters [ItemList] starts with. *)
Definition noFilters : FilterOptions :=
  {| f_search := ""; f_category := "All"; f_location := "All";
     f_type := "all"; f_status := "all"; f_dateFrom := ""; f_dateTo := "" |}.

(** The same with an empty category filter. *)
Definition emptyCategory : FilterOptions :=
  {| f_search := ""; f_category := ""; f_location := "All";
     f_type := "all"; f_status := "all"; f_dateFrom := ""; f_dateTo := "" |}.

Definition backpackInLibrary : FilterOptions :=
  {| f_search := "backpack"; f_category := "All";
     f_location := "Library - 2nd Floor";
     f_type := "all"; f_status := "all";
     f_dateFrom := "2024-03-01"; f_dateTo := "2024-03-31" |}.

(** Two items found in rooms that are named by their number. *)
Definition scarf : Item :=
  {| id := "4"; title := "Wool scarf"; description := "Grey, with fringes";
     category := "Clothing"; location := "204";
     date := "2024-03-07"; status := "active"; type := "found"; image := None;
     contactName := "Finn Abel"; contactInfo := "finn@campus.edu";
     createdAt := "2024-03-07T08:00:00.000Z" |}.

Definition notebook : Item :=
  {| id := "5"; title := "Red notebook"; description := "Lecture notes inside";
     category := "Books"; location := "101";
     date := "2024-03-08"; status := "active"; type := "found"; image := None;
     contactName := "Gina Hart"; contactInfo := "gina@campus.edu";
     createdAt := "2024-03-08T08:00:00.000Z" |}.

(** A payload that only sets the status. *)
Definition markClaimed : Storage.PartialItem :=
  {| Storage.u_id := None; Storage.u_title := None; Storage.u_description := None;
     Storage.u_category := None; Storage.u_location := None; Storage.u_date := None;
     Storage.u_status := Some "claimed"; Storage.u_type := None;
     Storage.u_image := None; Storage.u_contactName := None;
     Storage.u_contactInfo := None; Storage.u_createdAt := None |}.

(** A payload that carries an id and a creation time. *)
Definition renumber : Storage.PartialItem :=
  {| Storage.u_id := Some "99"; Storage.u_title := None; Storage.u_description := None;
     Storage.u_category := None; Storage.u_location := None; Storage.u_date := None;
     Storage.u_status := None; Storage.u_type := None;
     Storage.u_image := None; Storage.u_contactName := None;
     Storage.u_contactInfo := None;
     Storage.u_createdAt := Some "2030-01-01T00:00:00.000Z" |}.

Definition umbrella : Storage.NewItem :=
  {| Storage.n_title := "Black umbrella"; Storage.n_description := "Left in room 101";
     Storage.n_category := "Accessories"; Storage.n_location := "Gym";
     Storage.n_date := "2024-03-07"; Storage.n_status := "active";
     Storage.n_type := "found"; Storage.n_image := None;
     Storage.n_contactName := "Dan Roy"; Storage.n_contactInfo := "dan@campus.edu" |}.

Definition bottle : Storage.NewItem :=
  {| Storage.n_title := "Steel water bottle"; Storage.n_description := "Green, dented";
     Storage.n_category := "Accessories"; Storage.n_location := "Cafeteria";
     Storage.n_date := "2024-03-07"; Storage.n_status := "active";
     Storage.n_type := "lost"; Storage.n_image := None;
     Storage.n_contactName := "Eve Stone"; Storage.n_contactInfo := "5559876543" |}.

(** The store of a browser in which the sample items were saved. *)
Definition saved : Storage.State :=
  {| Storage.window := true; Storage.localStorage := Some items;
     Storage.mockItems := [] |}.

(** Eighty items, 23 of them claimed. *)
Definition eighty : list Item := replicate 23 keys ++ replicate 57 backpack.

(** A report whose contact info is a lone at sign. *)
Definition loneAtForm : ReportItemForm.FormData :=
  ReportItemForm.mkFormData "Blue Backpack" "Navy, laptop sleeve" "Bags"
    "Library - 2nd Floor" "2024-03-04" "lost" "active" "Alice Martin" "@" "".

End Sample.

(** * Properties *)

(** ** Strings *)

Lemma append_cons (c : ascii) (s t : string) :
  String c s +:+ t = String c (s +:+ t).
Proof. reflexivity. Qed.

Lemma append_nil (t : string) : "" +:+ t = t.
Proof. reflexivity. Qed.

Ltac unfold_append :=
  repeat (rewrite append_cons in * || rewrite append_nil in * ).

Lemma prefix_app (t s : string) :
  String.prefix t s = true ↔ ∃ post, s = t +:+ post.
Proof.
  revert s. induction t as [|a t IH]; intros s; simpl.
  - destruct s; split; eauto.
  - destruct s as [|b s]; simpl.
    + split; [done | intros [post ?]; done].
    + destruct (ascii_dec a b) as [->|Hne].
      * rewrite IH. split; intros [post Hp]; exists post; unfold_append; congruence.
      * split; [done | intros [post Hp]; unfold_append; congruence].
Qed.

Lemma includes_app (s t : string) :
  JsString.includes s t = true ↔ ∃ pre post, s = pre +:+ t +:+ post.
Proof.
  induction s as [|c s IH]; cbn [JsString.includes].
  - rewrite orb_false_r, prefix_app. split.
    + intros [post ->]. by exists "", post.
    + intros (pre & post & H). destruct pre; unfold_append; [eauto | done].
  - rewrite orb_true_iff, prefix_app, IH. split.
    + intros [[post ->] | (pre & post & ->)].
      * by exists "", post.
      * by exists (String c pre), post.
    + intros (pre & post & H). destruct pre as [|c' pre]; unfold_append.
      * left. eauto.
      * right. simplify_eq. eauto.
Qed.

Lemma toLowerCase_app (s1 s2 : string) :
  JsString.toLowerCase (s1 +:+ s2)
  = JsString.toLowerCase s1 +:+ JsString.toLowerCase s2.
Proof. induction s1; unfold_append; simpl; unfold_append; congruence. Qed.

Lemma toLowerCase_split (s a b : string) :
  JsString.toLowerCase s = a +:+ b →
  ∃ s1 s2, s = s1 +:+ s2 ∧ JsString.toLowerCase s1 = a ∧ JsString.toLowerCase s2 = b.
Proof.
  revert s. induction a as [|c a IH]; intros s H; unfold_append.
  - by exists "", s.
  - destruct s as [|c' s]; simpl in H; [done |]. simplify_eq.
    destruct (IH s) as (s1 & s2 & -> & <- & <-); [done |].
    by exists (String c' s1), s2.
Qed.

Lemma includes_lower_occurs (q s : string) :
  JsString.includes (JsString.toLowerCase s) (JsString.toLowerCase q) = true
  ↔ Spec.occursIgnoringCase q s.
Proof.
  rewrite includes_app. unfold Spec.occursIgnoringCase. split.
  - intros (pre & post & H).
    apply toLowerCase_split in H as (s1 & s2 & -> & <- & H).
    apply toLowerCase_split in H as (s3 & s4 & -> & H & <-).
    by exists s1, s3, s4.
  - intros (pre & mid & post & -> & Hmid).
    exists (JsString.toLowerCase pre), (JsString.toLowerCase post).
    by rewrite !toLowerCase_app, Hmid.
Qed.

(** ** [Array.prototype.sort] *)

Section SortFacts.
Context {A : Type} (compareFn : A → A → option Z).

Local Abbreviation keeps := (JsArray.keeps compareFn).
Local Abbreviation place := (JsArray.place compareFn).
Local Abbreviation sort := (JsArray.sort compareFn).

Lemma place_Permutation (x : A) (l : list A) : place x l ≡ₚ x :: l.
Proof.
  induction l as [|y l IH]; simpl; [done |].
  destruct (keeps x y); [done |].
  rewrite IH. apply Permutation_swap.
Qed.

Lemma sort_Permutation (l : list A) : sort l ≡ₚ l.
Proof.
  induction l as [|x l IH]; simpl; [done |].
  by rewrite place_Permutation, IH.
Qed.

Lemma elem_of_sort (x : A) (l : list A) : x ∈ sort l ↔ x ∈ l.
Proof. by rewrite sort_Permutation. Qed.

(** Stability: elements that the comparator leaves in place with respect to
    one another keep the order they had. *)
Lemma place_filter (P : A → Prop) `{∀ x, Decision (P x)} (x : A) (l : list A) :
  (∀ y, P x → P y → keeps x y = true) →
  filter P (place x l) = filter P (x :: l).
Proof.
  intros Hk. induction l as [|y l IH]; simpl; [done |].
  destruct (keeps x y) eqn:Hxy; [done |].
  rewrite (filter_cons P y), IH, !(filter_cons P x), (filter_cons P y).
  destruct (decide (P x)) as [Hx|]; [| done].
  destruct (decide (P y)) as [Hy|]; [| done].
  rewrite Hk in Hxy; done.
Qed.

Lemma sort_stable (P : A → Prop) `{∀ x, Decision (P x)} (l : list A) :
  (∀ x y, P x → P y → keeps x y = true) →
  filter P (sort l) = filter P l.
Proof.
  intros Hk. induction l as [|x l IH]; simpl; [done |].
  rewrite place_filter by eauto.
  by rewrite !filter_cons, IH.
Qed.

(** Sortedness, for a comparator that is sound and total for [R] on the
    elements that satisfy [Q]. *)
Lemma place_HdRel (R : relation A) (x a : A) (l : list A) :
  R a x → HdRel R a l → HdRel R a (place x l).
Proof.
  intros Hax Hl. destruct l as [|y l]; simpl; [by constructor |].
  destruct (keeps x y); constructor; [done |].
  by inversion Hl.
Qed.

Lemma place_Sorted (R : relation A) (Q : A → Prop) (x : A) (l : list A) :
  (∀ a b, Q a → Q b → keeps a b = true → R a b) →
  (∀ a b, Q a → Q b → keeps a b = false → R b a) →
  Q x → Forall Q l → Sorted R l → Sorted R (place x l).
Proof.
  intros Hsound Htotal Hx HQ Hl.
  induction Hl as [|y l Hl IH Hhd]; simpl.
  - repeat constructor.
  - inversion HQ as [|?? Hy HQl]; subst.
    destruct (keeps x y) eqn:Hxy.
    + constructor; [by constructor |]. constructor. eauto.
    + constructor; [by apply IH |]. apply place_HdRel; eauto.
Qed.

Lemma sort_Sorted (R : relation A) (Q : A → Prop) (l : list A) :
  (∀ a b, Q a → Q b → keeps a b = true → R a b) →
  (∀ a b, Q a → Q b → keeps a b = false → R b a) →
  Forall Q l → Sorted R (sort l).
Proof.
  intros Hsound Htotal HQ.
  induction HQ as [|x l Hx HQ IH]; simpl; [constructor |].
  eapply place_Sorted; eauto.
  by rewrite sort_Permutation.
Qed.

End SortFacts.

Lemma StronglySorted_lookup {A} (R : relation A) (l : list A) (i j : nat) (a b : A) :
  StronglySorted R l → (i < j)%nat → l !! i = Some a → l !! j = Some b → R a b.
Proof.
  intros Hl. revert i j. induction Hl as [|x l Hl IH Hx]; intros i j Hij Hi Hj.
  - done.
  - destruct j as [|j]; [lia |]. simpl in Hj.
    destruct i as [|i]; simpl in Hi.
    + simplify_eq. rewrite Forall_forall in Hx. apply Hx.
      by eapply list_elem_of_lookup_2.
    + eapply (IH i j); [lia | done | done].
Qed.

(** ** Search: filtering and ordering of [ItemList] *)

Section SearchFacts.
Variable Date_getTime : string → option Z.

Lemma truthy_false (s : string) : negb (JsString.truthy s) = true ↔ s = "".
Proof. destruct s; simpl; split; done. Qed.

Lemma date_ge_notBefore (d bound : string) :
  ItemList.date_ge Date_getTime d bound = true ↔ Spec.notBefore Date_getTime d bound.
Proof.
  unfold ItemList.date_ge, Spec.notBefore.
  destruct (Date_getTime d) as [x|], (Date_getTime bound) as [y|];
    try (split; [done | by intros (? & ? & ? & ? & ?)]).
  rewrite bool_decide_eq_true. split.
  - intros ?. by exists x, y.
  - intros (? & ? & ? & ? & ?). by simplify_eq.
Qed.

Lemma date_le_notBefore (d bound : string) :
  ItemList.date_le Date_getTime d bound = true ↔ Spec.notBefore Date_getTime bound d.
Proof.
  unfold ItemList.date_le, Spec.notBefore.
  destruct (Date_getTime d) as [x|], (Date_getTime bound) as [y|];
    try (split; [done | by intros (? & ? & ? & ? & ?)]).
  rewrite bool_decide_eq_true. split.
  - intros ?. by exists y, x.
  - intros (? & ? & ? & ? & ?). by simplify_eq.
Qed.

Lemma matchesSearch_textMatches (filters : FilterOptions) (item : Item) :
  ItemList.matchesSearch filters item = true
  ↔ Spec.textMatches (f_search filters) item.
Proof.
  unfold ItemList.matchesSearch, Spec.textMatches.
  rewrite !orb_true_iff, !includes_lower_occurs. tauto.
Qed.

Lemma keep_satisfies (filters : FilterOptions) (item : Item) :
  ItemList.keep Date_getTime filters item = true
  ↔ Spec.satisfies Date_getTime filters item.
Proof.
  unfold ItemList.keep, Spec.satisfies.
  unfold ItemList.matchesCategory, ItemList.matchesLocation, ItemList.matchesType,
    ItemList.matchesStatus, ItemList.matchesDateFrom, ItemList.matchesDateTo.
  rewrite !andb_true_iff, !orb_true_iff, !bool_decide_eq_true, !truthy_false.
  rewrite matchesSearch_textMatches, date_ge_notBefore, date_le_notBefore.
  tauto.
Qed.

Lemma elem_of_filteredItems (filters : FilterOptions) (items : list Item) (item : Item) :
  item ∈ ItemList.filteredItems Date_getTime filters items
  ↔ item ∈ items ∧ Spec.satisfies Date_getTime filters item.
Proof.
  unfold ItemList.filteredItems.
  rewrite list_elem_of_filter, Is_true_true, keep_satisfies. tauto.
Qed.

#[local] Instance notNewer_trans : Transitive (Spec.notNewer Date_getTime).
Proof.
  intros a b c (ta & tb & Ha & Hb & ?) (tb' & tc & Hb' & Hc & ?).
  exists ta, tc. simplify_eq. repeat split; [done | done | lia].
Qed.

Lemma sortedItems_newestFirst (l : list Item) :
  Forall (λ item, is_Some (Date_getTime (createdAt item))) l →
  Spec.newestFirst Date_getTime (JsArray.sort (ItemList.newestFirst Date_getTime) l).
Proof.
  intros Hvalid i j a b Hij Hi Hj.
  eapply (StronglySorted_lookup (Spec.notNewer Date_getTime) _ i j a b); [| done..].
  apply Sorted_StronglySorted; [intros x y z; apply notNewer_trans |].
  eapply sort_Sorted; [| | exact Hvalid].
  - intros x y [tx Hx] [ty Hy]. unfold JsArray.keeps, ItemList.newestFirst.
    rewrite Hx, Hy, bool_decide_eq_true. intros ?.
    exists tx, ty. repeat split; [done | done | lia].
  - intros x y [tx Hx] [ty Hy]. unfold JsArray.keeps, ItemList.newestFirst.
    rewrite Hx, Hy, bool_decide_eq_false. intros ?.
    exists ty, tx. repeat split; [done | done | lia].
Qed.

End SearchFacts.

(** C1, as amended.  For every list of items and every filter setting, the
    search returns exactly the items that satisfy all filters: the query is a
    case-insensitive substring of the title, description, location or
    contact name; category and location equal the filter value unless it is
    ["All"]; type and status equal the filter value unless it is ["all"]; the
    date lies in the inclusive range, an empty bound being no bound.  The
    result is a rearrangement of a sub-sequence of the items, and it is
    ordered newest first by [createdAt] when the [createdAt] values of the
    items are valid dates. *)
Theorem search_returns_matching_items_newest_first
    (Date_getTime : string → option Z) (filters : FilterOptions) (items : list Item) :
  let result := ItemList.sortedItems Date_getTime filters items in
  (∀ item, item ∈ result ↔ item ∈ items ∧ Spec.satisfies Date_getTime filters item)
  ∧ (∃ kept, kept `sublist_of` items ∧ result ≡ₚ kept)
  ∧ (Forall (λ item, is_Some (Date_getTime (createdAt item))) items →
     Spec.newestFirst Date_getTime result).
Proof.
  intros result. subst result. unfold ItemList.sortedItems.
  split; [| split].
  - intros item. by rewrite elem_of_sort, elem_of_filteredItems.
  - exists (ItemList.filteredItems Date_getTime filters items). split.
    + apply sublist_filter.
    + apply sort_Permutation.
  - intros Hvalid. apply sortedItems_newestFirst.
    unfold ItemList.filteredItems. rewrite Forall_forall in Hvalid.
    rewrite Forall_forall. intros item [_ Hin]%list_elem_of_filter. by apply Hvalid.
Qed.

Lemma search_returns_matching_items_newest_first_witness :
  Forall (λ item, is_Some (IsoDate.getTime (createdAt item))) Sample.items
  ∧ ItemList.sortedItems IsoDate.getTime Sample.backpackInLibrary Sample.items
    = [Sample.calculator; Sample.backpack]
  ∧ Spec.newestFirst IsoDate.getTime
      (ItemList.sortedItems IsoDate.getTime Sample.backpackInLibrary Sample.items).
Proof.
  assert (Forall (λ item, is_Some (IsoDate.getTime (createdAt item))) Sample.items)
    as Hvalid by (repeat constructor; vm_compute; eauto).
  split; [exact Hvalid |]. split; [by vm_compute |].
  exact (proj2 (proj2 (search_returns_matching_items_newest_first
                         IsoDate.getTime Sample.backpackInLibrary Sample.items))
           Hvalid).
Defined.

(** C1, as the specification words it, fails: with the empty string as
    category filter an item of category ["Bags"] satisfies every filter of
    the claim, yet the search does not return it. *)
Lemma search_empty_category_counterexample :
  Spec.satisfiesAsClaimed IsoDate.getTime Sample.emptyCategory Sample.backpack
  ∧ Sample.backpack ∈ Sample.items
  ∧ Sample.backpack ∉ ItemList.sortedItems IsoDate.getTime Sample.emptyCategory Sample.items.
Proof.
  split; [| split].
  - unfold Spec.satisfiesAsClaimed, Spec.unconstrained. simpl.
    split; [| by auto 10].
    left. by exists "", "", "Blue Backpack".
  - by left.
  - by vm_compute; intros H; inversion H.
Qed.

(** ** Suggestions *)

(** C2.  For every query shorter than two code units, the empty one
    included, [getSearchSuggestions] returns the empty sequence, whatever the
    backend (and so whatever item set it holds) would have answered. *)
Theorem suggestions_empty_for_short_query
    (fetchSuggestions : string → completion (list string)) (query : string) :
  String.length query < 2 →
  ApiService.getSearchSuggestions fetchSuggestions query = Normal [].
Proof.
  intros Hlen. unfold ApiService.getSearchSuggestions.
  by apply Nat.ltb_lt in Hlen as ->.
Qed.

Lemma suggestions_empty_for_short_query_witness :
  String.length "b" < 2
  ∧ ApiService.getSearchSuggestions (λ _, Normal ["Blue Backpack"; "Bags"]) "b"
    = Normal []
  ∧ ApiService.getSearchSuggestions (λ _, Normal ["Blue Backpack"; "Bags"]) "ba"
    = Normal ["Blue Backpack"; "Bags"].
Proof.
  assert (String.length "b" < 2) as Hlen by (simpl; lia).
  split; [exact Hlen |]. split; [| reflexivity].
  exact (suggestions_empty_for_short_query (λ _, Normal ["Blue Backpack"; "Bags"]) "b" Hlen).
Defined.

(** ** Dashboard counts *)

Lemma countWhere_cons (f : Item → string) (v : string) (x : Item) (l : list Item) :
  Dashboard.countWhere f v (x :: l)
  = (if decide (f x = v) then 1 else 0) + Dashboard.countWhere f v l.
Proof.
  unfold Dashboard.countWhere. rewrite filter_cons.
  by destruct (decide (f x = v)).
Qed.

Lemma countWhere_partition2 (f : Item → string) (v1 v2 : string) (l : list Item) :
  v1 ≠ v2 →
  Forall (λ item, f item ∈ [v1; v2]) l →
  Dashboard.countWhere f v1 l + Dashboard.countWhere f v2 l = length l.
Proof.
  intros Hne Hl. induction Hl as [|x l Hx Hl IH]; [done |].
  rewrite !countWhere_cons. simpl. rewrite <- IH.
  rewrite !elem_of_cons, elem_of_nil in Hx.
  destruct Hx as [Hx|[Hx|[]]]; rewrite Hx; repeat case_decide; try done; lia.
Qed.

Lemma countWhere_partition3 (f : Item → string) (v1 v2 v3 : string) (l : list Item) :
  v1 ≠ v2 → v1 ≠ v3 → v2 ≠ v3 →
  Forall (λ item, f item ∈ [v1; v2; v3]) l →
  Dashboard.countWhere f v1 l + Dashboard.countWhere f v2 l
  + Dashboard.countWhere f v3 l = length l.
Proof.
  intros H12 H13 H23 Hl. induction Hl as [|x l Hx Hl IH]; [done |].
  rewrite !countWhere_cons. simpl. rewrite <- IH.
  rewrite !elem_of_cons, elem_of_nil in Hx.
  destruct Hx as [Hx|[Hx|[Hx|[]]]]; rewrite Hx; repeat case_decide; try done; lia.
Qed.

(** C3.  For every item list whose types are ["lost"] or ["found"] and whose
    statuses are ["active"], ["claimed"] or ["pending"], the lost and found
    counts add up to the total, and so do the three status counts. *)
Theorem dashboard_totals_consistent (items : list Item) :
  Forall (λ item, type item ∈ ["lost"; "found"]) items →
  Forall (λ item, status item ∈ ["active"; "claimed"; "pending"]) items →
  let st := Dashboard.stats (Dashboard.calculateLocalData items) in
  Dashboard.lostItems st + Dashboard.foundItems st = Dashboard.totalItems st
  ∧ Dashboard.activeItems st + Dashboard.claimedItems st + Dashboard.pendingItems st
    = Dashboard.totalItems st.
Proof.
  intros Htype Hstatus st. subst st. simpl. split.
  - by apply countWhere_partition2.
  - by apply countWhere_partition3.
Qed.

Lemma dashboard_totals_consistent_witness :
  let st := Dashboard.stats (Dashboard.calculateLocalData Sample.items) in
  Dashboard.totalItems st = 3
  ∧ Dashboard.lostItems st + Dashboard.foundItems st = Dashboard.totalItems st
  ∧ Dashboard.activeItems st + Dashboard.claimedItems st + Dashboard.pendingItems st
    = Dashboard.totalItems st.
Proof.
  split; [reflexivity |].
  apply (dashboard_totals_consistent Sample.items);
    apply (bool_decide_unpack _); by vm_compute.
Defined.

(** ** Claim rate *)

Section Binary64Facts.

Lemma pow2_pos (e : Z) : (0 < Binary64.pow2 e)%Q.
Proof. by apply Qpower_0_lt. Qed.

Lemma pow2_plus (a b : Z) :
  (Binary64.pow2 (a + b) == Binary64.pow2 a * Binary64.pow2 b)%Q.
Proof. by apply Qpower_plus. Qed.

Lemma pow2_inject (e : Z) : (0 ≤ e)%Z → (inject_Z (2 ^ e) == Binary64.pow2 e)%Q.
Proof. intros He. by rewrite Zpower_Qpower. Qed.

Lemma pow2_lt_inv (a b : Z) : (Binary64.pow2 a < Binary64.pow2 b)%Q → (a < b)%Z.
Proof. intros Hlt. by apply (Qpower_lt_compat_l_inv (2 # 1)). Qed.

(** [exponent q] is the integer part of the binary logarithm of [q]. *)
Lemma exponent_spec (q : Q) :
  (0 < q)%Q →
  (Binary64.pow2 (Binary64.exponent q) <= q)%Q
  ∧ (q < Binary64.pow2 (Binary64.exponent q + 1))%Q.
Proof.
  intros Hq. destruct q as [n d].
  assert (0 < n)%Z as Hn by (unfold Qlt in Hq; simpl in Hq; lia).
  unfold Binary64.exponent. cbn [Qnum Qden].
  set (a := Z.log2 n). set (b := Z.log2 (Z.pos d)).
  assert (0 ≤ a)%Z as Ha by apply Z.log2_nonneg.
  assert (0 ≤ b)%Z as Hb by apply Z.log2_nonneg.
  destruct (Z.log2_spec n Hn) as [Hn1 Hn2]. fold a in Hn1, Hn2.
  destruct (Z.log2_spec (Z.pos d) (Pos2Z.is_pos d)) as [Hd1 Hd2]. fold b in Hd1, Hd2.
  assert (n # d == inject_Z n / inject_Z (Z.pos d))%Q as Hquot by apply Qmake_Qdiv.
  assert (0 < inject_Z (Z.pos d))%Q as Hdpos by (by rewrite <- (Zlt_Qlt 0)).
  assert (inject_Z (2 ^ a) <= inject_Z n)%Q as Hn1' by (by rewrite <- Zle_Qle).
  assert (inject_Z n < inject_Z (2 ^ (a + 1)))%Q as Hn2'
    by (rewrite <- Zlt_Qlt; by rewrite <- Z.add_1_r in Hn2).
  assert (inject_Z (2 ^ b) <= inject_Z (Z.pos d))%Q as Hd1' by (by rewrite <- Zle_Qle).
  assert (inject_Z (Z.pos d) < inject_Z (2 ^ (b + 1)))%Q as Hd2'
    by (rewrite <- Zlt_Qlt; by rewrite <- Z.add_1_r in Hd2).
  rewrite pow2_inject in Hn1', Hn2', Hd1', Hd2' by lia.
  destruct (Qle_bool _ _) eqn:Hle.
  - apply Qle_bool_iff in Hle. split; [done |].
    rewrite Hquot. apply Qlt_shift_div_r; [done |].
    eapply Qlt_le_trans; [exact Hn2' |].
    replace (a + 1)%Z with ((a - b + 1) + b)%Z by lia. rewrite pow2_plus.
    apply Qmult_le_l; [apply pow2_pos | done].
  - assert (¬ (Binary64.pow2 (a - b) <= n # d)%Q) as Hnle
      by (rewrite <- Qle_bool_iff; by rewrite Hle).
    apply Qnot_le_lt in Hnle.
    split; [| by replace (a - b - 1 + 1)%Z with (a - b)%Z by lia].
    rewrite Hquot. apply Qle_shift_div_l; [done |].
    eapply Qle_trans; [| exact Hn1'].
    replace a with ((a - b - 1) + (b + 1))%Z at 2 by lia. rewrite pow2_plus.
    apply Qmult_le_l; [apply pow2_pos | by apply Qlt_le_weak].
Qed.

Lemma roundHalfEven_bounds (x : Q) (K : Z) :
  (0 <= x)%Q → (x <= inject_Z K)%Q →
  (0 ≤ Binary64.roundHalfEven x ≤ K)%Z.
Proof.
  intros Hlo Hhi.
  pose proof (Qfloor_resp_le _ _ Hlo) as Hf0. change (Qfloor 0) with 0%Z in Hf0.
  pose proof (Qfloor_resp_le _ _ Hhi) as HfK. rewrite Qfloor_Z in HfK.
  pose proof (Qfloor_le x) as Hfx.
  unfold Binary64.roundHalfEven.
  destruct (_ ?= _)%Q eqn:Hcmp; [| lia |].
  - apply Qeq_alt in Hcmp.
    assert (Qfloor x ≠ K) as Hne by (intros Heq; rewrite Heq in Hcmp; lra).
    destruct (Z.even _); lia.
  - apply Qgt_alt in Hcmp.
    assert (Qfloor x ≠ K) as Hne by (intros Heq; rewrite Heq in Hcmp; lra).
    lia.
Qed.

(** [roundHalfEven x] is an integer nearest to [x]. *)
Lemma roundHalfEven_nearest (x : Q) :
  (x - (1 # 2) <= inject_Z (Binary64.roundHalfEven x))%Q
  ∧ (inject_Z (Binary64.roundHalfEven x) <= x + (1 # 2))%Q.
Proof.
  pose proof (Qfloor_le x) as Hlo. pose proof (Qlt_floor x) as Hhi.
  rewrite inject_Z_plus in Hhi. change (inject_Z 1) with 1%Q in Hhi.
  unfold Binary64.roundHalfEven.
  destruct (_ ?= _)%Q eqn:Hcmp.
  - apply Qeq_alt in Hcmp.
    destruct (Z.even _); rewrite ?inject_Z_plus; change (inject_Z 1) with 1%Q; lra.
  - apply Qlt_alt in Hcmp. lra.
  - apply Qgt_alt in Hcmp. rewrite inject_Z_plus. change (inject_Z 1) with 1%Q. lra.
Qed.

(** Rounding does not cross an integer below [2^53], which is a binary64
    value itself; so it does not reach the infinity from below one. *)
Lemma round_bounds (q : Q) (M : Z) :
  (0 <= q)%Q → (q <= inject_Z M)%Q → (M < 2 ^ 53)%Z →
  ∃ r, Binary64.round q = Some r ∧ (0 <= r)%Q ∧ (r <= inject_Z M)%Q.
Proof.
  intros Hlo Hhi HM. unfold Binary64.round.
  destruct (q ?= 0)%Q eqn:Hcmp.
  - exists 0%Q. split; [done |]. split; [lra |]. lra.
  - apply Qlt_alt in Hcmp. lra.
  - apply Qgt_alt in Hcmp.
    destruct (exponent_spec q Hcmp) as [Hexp _].
    assert (inject_Z M < Binary64.pow2 53)%Q as HM'
      by (rewrite <- pow2_inject by lia; by rewrite <- Zlt_Qlt).
    assert (Binary64.exponent q < 53)%Z as Hexp53 by (apply pow2_lt_inv; lra).
    unfold Binary64.roundPositive.
    set (e := Z.max (Binary64.exponent q) (-1022)).
    assert (e ≤ 52)%Z as He by lia.
    set (x := (q * Binary64.pow2 (52 - e))%Q).
    pose proof (pow2_pos (52 - e)) as Hup. pose proof (pow2_pos (e - 52)) as Hdown.
    assert (inject_Z (M * 2 ^ (52 - e)) == inject_Z M * Binary64.pow2 (52 - e))%Q as HK
      by (rewrite inject_Z_mult, pow2_inject by lia; reflexivity).
    destruct (roundHalfEven_bounds x (M * 2 ^ (52 - e))) as [HN0 HNK].
    { subst x. apply Qmult_le_0_compat; lra. }
    { rewrite HK. subst x. apply Qmult_le_compat_r; lra. }
    set (N := Binary64.roundHalfEven x) in *.
    assert (Binary64.pow2 (52 - e) * Binary64.pow2 (e - 52) == 1)%Q as Hinv.
    { rewrite <- pow2_plus. by replace (52 - e + (e - 52))%Z with 0%Z by lia. }
    set (r := Qred _).
    assert (r == inject_Z N * Binary64.pow2 (e - 52))%Q as Hr by apply Qred_correct.
    assert (0 <= r)%Q as Hr0.
    { rewrite Hr. apply Qmult_le_0_compat; [| lra]. by rewrite <- (Zle_Qle 0). }
    assert (r <= inject_Z M)%Q as HrM.
    { rewrite Hr. apply Qle_trans with
        (inject_Z (M * 2 ^ (52 - e)) * Binary64.pow2 (e - 52))%Q.
      - apply Qmult_le_compat_r; [by rewrite <- Zle_Qle | lra].
      - rewrite HK, <- Qmult_assoc, Hinv. lra. }
    assert (Binary64.pow2 53 <= Binary64.pow2 1024)%Q as Hbig
      by (by apply Qpower_le_compat_l).
    destruct (Qle_bool _ r) eqn:Hover.
    + apply Qle_bool_iff in Hover. lra.
    + by exists r.
Qed.

Lemma rounded_bounds (q : Q) (M : Z) :
  (0 <= q)%Q → (q <= inject_Z M)%Q → (M < 2 ^ 53)%Z →
  ∃ r, Dashboard.rounded q = Dashboard.Finite r ∧ (0 <= r)%Q ∧ (r <= inject_Z M)%Q.
Proof.
  intros Hlo Hhi HM. unfold Dashboard.rounded.
  destruct (round_bounds q M Hlo Hhi HM) as (r & -> & Hr). by exists r.
Qed.

(** The quotient of a count by a larger, positive one is a number from [0]
    to [1]. *)
Lemma divide_bounds (a b : nat) :
  a ≤ b → 0 < b →
  ∃ r, Dashboard.divide a b = Dashboard.Finite r ∧ (0 <= r)%Q ∧ (r <= 1)%Q.
Proof.
  intros Hle Hb. destruct b as [|b]; [lia |]. cbn [Dashboard.divide].
  apply (rounded_bounds _ 1); [| | done].
  - unfold Qle. simpl. lia.
  - unfold Qle. cbn [Qnum Qden inject_Z]. rewrite <- Pos.of_nat_succ. lia.
Qed.

(** The percentage of a share of a positive count, as [toFixed(1)] prints
    it, is between [0.0] and [100.0]. *)
Lemma percent_text_bounds (a b : nat) :
  a ≤ b → 0 < b →
  ∃ n, Dashboard.toFixed1 (Dashboard.times (Dashboard.divide a b) 100)
       = Dashboard.Tenths n
       ∧ (0 ≤ n ≤ 1000)%Z.
Proof.
  intros Hle Hb.
  destruct (divide_bounds a b Hle Hb) as (r & -> & Hr0 & Hr1).
  cbn [Dashboard.times].
  destruct (rounded_bounds (r * (100 # 1)) 100) as (p & -> & Hp0 & Hp100);
    [lra | change (inject_Z 100) with (100 # 1)%Q; lra | done |].
  change (inject_Z 100) with (100 # 1)%Q in Hp100.
  cbn [Dashboard.toFixed1].
  assert (Qle_bool 0 p = true) as -> by (by apply Qle_bool_iff).
  eexists. split; [reflexivity |]. split.
  - change 0%Z with (Qfloor 0). apply Qfloor_resp_le. lra.
  - assert (p * (10 # 1) + (1 # 2) <= (1000 # 1) + (1 # 2))%Q as Hhalf by lra.
    apply Qfloor_resp_le in Hhalf. exact Hhalf.
Qed.

Lemma claimRate_range (items : list Item) :
  ∃ q, Dashboard.claimRate (Dashboard.stats (Dashboard.calculateLocalData items))
       = Dashboard.Finite q
       ∧ (0 <= q)%Q ∧ (q <= 100)%Q.
Proof.
  unfold Dashboard.calculateLocalData. cbn [Dashboard.stats Dashboard.claimRate].
  destruct (0 <? length items) eqn:Hlen.
  - apply Nat.ltb_lt in Hlen.
    destruct (percent_text_bounds (Dashboard.countWhere status "claimed" items)
                (length items) (length_filter _ _) Hlen) as (n & -> & Hn0 & Hn1000).
    cbn [Dashboard.parseFloat].
    destruct (rounded_bounds (n # 10) 100) as (q & Hq & Hq0 & Hq100); [| | done |].
    + unfold Qle. simpl. lia.
    + unfold Qle. simpl. lia.
    + exists q. by rewrite Hq.
  - exists 0%Q. split; [done |]. split; [lra | done].
Qed.

End Binary64Facts.

(** C4.  A list without items has claim rate [0], and the claim rate of
    every list is a finite number: the quotient is only taken when the total
    is positive, so neither the [NaN] of [0 / 0] nor an infinity ever
    reaches the result. *)
Theorem claim_rate_guarded (items : list Item) :
  let st := Dashboard.stats (Dashboard.calculateLocalData items) in
  (Dashboard.totalItems st = 0 → Dashboard.claimRate st = Dashboard.Finite 0)
  ∧ Dashboard.claimRate st ≠ Dashboard.NaN
  ∧ Dashboard.claimRate st ≠ Dashboard.Infinity
  ∧ Dashboard.divide 0 0 = Dashboard.NaN
  ∧ Dashboard.parseFloat
      (inl (Dashboard.toFixed1 (Dashboard.times (Dashboard.divide 0 0) 100)))
    = Dashboard.NaN.
Proof.
  intros st. subst st.
  destruct (claimRate_range items) as (q & Hq & _).
  split_and!; [| by rewrite Hq | by rewrite Hq | done | done].
  cbn [Dashboard.calculateLocalData Dashboard.stats Dashboard.totalItems].
  intros Hlen. by apply nil_length_inv in Hlen as ->.
Qed.

(** What the statistics card prints, [stats.claimRate.toFixed(1)]: a third
    is [33.3], and 23 of 80 is [28.7], since the product
    [28.749999999999996] of the rounded quotient is below the exact
    [28.75]. *)
Example claim_rate_samples :
  Dashboard.claimRate (Dashboard.stats (Dashboard.calculateLocalData []))
  = Dashboard.Finite 0
  ∧ Dashboard.toFixed1
      (Dashboard.claimRate (Dashboard.stats (Dashboard.calculateLocalData Sample.items)))
    = Dashboard.Tenths 333
  ∧ Dashboard.times (Dashboard.divide 23 80) 100
    = Dashboard.Finite (8092405580431359 # 281474976710656)
  ∧ Dashboard.toFixed1
      (Dashboard.claimRate (Dashboard.stats (Dashboard.calculateLocalData Sample.eighty)))
    = Dashboard.Tenths 287.
Proof. split_and!; by vm_compute. Qed.

(** ** Form validation *)

Lemma trimStart_empty (s : string) : JsString.trimStart s = "" ↔ Spec.blank s.
Proof.
  induction s as [|c s IH]; simpl; [done |].
  destruct (JsString.isWhiteSpace c); rewrite ?IH; [tauto |].
  split; [done | by intros [? _]].
Qed.

Lemma blank_trimStart (s : string) : Spec.blank (JsString.trimStart s) ↔ Spec.blank s.
Proof.
  induction s as [|c s IH]; simpl; [done |].
  destruct (JsString.isWhiteSpace c) eqn:Hc; simpl; rewrite ?Hc, ?IH; tauto.
Qed.

Lemma blank_rev_app (s1 s2 : string) :
  Spec.blank (String.rev_app s1 s2) ↔ Spec.blank s1 ∧ Spec.blank s2.
Proof.
  revert s2. induction s1 as [|c s1 IH]; intros s2; simpl; [tauto |].
  rewrite IH. simpl. tauto.
Qed.

Lemma blank_rev (s : string) : Spec.blank (String.rev s) ↔ Spec.blank s.
Proof. unfold String.rev. rewrite blank_rev_app. simpl. tauto. Qed.

Lemma rev_app_empty (s1 s2 : string) :
  String.rev_app s1 s2 = "" ↔ s1 = "" ∧ s2 = "".
Proof.
  revert s2. induction s1 as [|c s1 IH]; intros s2; simpl.
  - split; [done | by intros [_ ?]].
  - rewrite IH. split; intros [? ?]; done.
Qed.

Lemma trim_empty (s : string) : JsString.trim s = "" ↔ Spec.blank s.
Proof.
  unfold JsString.trim, JsString.trimEnd, String.rev at 1.
  rewrite rev_app_empty, trimStart_empty, blank_rev, blank_trimStart. tauto.
Qed.

Lemma trim_falsy (s : string) :
  negb (JsString.truthy (JsString.trim s)) = true ↔ Spec.blank s.
Proof. by rewrite truthy_false, trim_empty. Qed.

Lemma prefix_single (c c' : ascii) (s : string) :
  String.prefix (String c "") (String c' s) = bool_decide (c = c').
Proof.
  cbn [String.prefix]. destruct (ascii_dec c c') as [->|Hne].
  - rewrite bool_decide_eq_true_2 by done. by destruct s.
  - by rewrite bool_decide_eq_false_2.
Qed.

Lemma includes_at (s : string) :
  JsString.includes s "@" = true ↔ Spec.containsAt s.
Proof.
  unfold Spec.containsAt.
  induction s as [|c s IH]; cbn [JsString.includes Spec.hasChar]; [done |].
  rewrite orb_true_iff, IH, prefix_single, bool_decide_eq_true.
  split; (intros [Hc|Hs]; [by left | by right]).
Qed.

Lemma isDigit_spec (c : ascii) :
  JsString.isDigit c = true
  ↔ c ∈ ["0"; "1"; "2"; "3"; "4"; "5"; "6"; "7"; "8"; "9"]%char.
Proof.
  rewrite <- (bool_decide_spec (c ∈ _)), <- Is_true_true.
  destruct c as [[] [] [] [] [] [] [] []]; by vm_compute.
Qed.

Lemma allDigits_spec (s : string) :
  JsString.allDigits s = true
  ↔ ∀ i c, String.get i s = Some c →
      c ∈ ["0"; "1"; "2"; "3"; "4"; "5"; "6"; "7"; "8"; "9"]%char.
Proof.
  induction s as [|c s IH]; simpl.
  - split; [intros _ i c' Hget; by destruct i | done].
  - rewrite andb_true_iff, IH, isDigit_spec. split.
    + intros [Hc Hs] i c' Hget. destruct i as [|i]; simpl in Hget.
      * by simplify_eq.
      * by eapply Hs.
    + intros Hall. split.
      * by apply (Hall 0).
      * intros i c' Hget. by apply (Hall (S i)).
Qed.

Lemma matchesTenDigits_spec (s : string) :
  ReportItemForm.matchesTenDigits s = true ↔ Spec.tenDigits s.
Proof.
  unfold ReportItemForm.matchesTenDigits, Spec.tenDigits.
  by rewrite andb_true_iff, bool_decide_eq_true, allDigits_spec.
Qed.

Lemma containsAt_not_blank (s : string) : Spec.containsAt s → ¬ Spec.blank s.
Proof.
  unfold Spec.containsAt. induction s as [|c s IH]; simpl; [done |].
  intros [->|Hs] [Hc Hb]; [done | by apply IH].
Qed.

Lemma tenDigits_not_blank (s : string) : Spec.tenDigits s → ¬ Spec.blank s.
Proof.
  intros [Hlen Hdigits] Hblank. destruct s as [|c s]; [done |].
  destruct Hblank as [Hc _]. specialize (Hdigits 0 c eq_refl).
  apply isDigit_spec in Hdigits. revert Hc Hdigits.
  by destruct c as [[] [] [] [] [] [] [] []].
Qed.

Lemma require_nil (field message value : string) (errs : ReportItemForm.Errors) :
  ReportItemForm.require field message value errs = []
  ↔ errs = [] ∧ ¬ Spec.blank value.
Proof.
  unfold ReportItemForm.require.
  destruct (negb (JsString.truthy (JsString.trim value))) eqn:Hv.
  - apply trim_falsy in Hv. split; [by intros [_ ?]%app_nil | tauto].
  - rewrite <- trim_falsy, Hv. split; [done | tauto].
Qed.

Lemma checkContactInfo_nil (value : string) (errs : ReportItemForm.Errors) :
  ReportItemForm.checkContactInfo value errs = []
  ↔ errs = [] ∧ (Spec.containsAt value ∨ Spec.tenDigits value).
Proof.
  unfold ReportItemForm.checkContactInfo.
  destruct (negb (JsString.truthy (JsString.trim value))) eqn:Hv.
  - apply trim_falsy in Hv. split; [by intros [_ ?]%app_nil |].
    intros [_ [?%containsAt_not_blank | ?%tenDigits_not_blank]]; done.
  - rewrite <- includes_at, <- matchesTenDigits_spec.
    destruct (JsString.includes value "@"), (ReportItemForm.matchesTenDigits value);
      simpl; try (split; [by auto | tauto]).
    split; [by intros [_ ?]%app_nil | intros [_ [|]]; done].
Qed.

(** C6.  The form is accepted exactly when title, description and contact
    name are non-empty after trimming and the contact info is non-empty and
    either has an at sign or is exactly ten digits; accepted means no error
    is recorded. *)
Theorem validateForm_accepts_iff (formData : ReportItemForm.FormData) :
  (snd (ReportItemForm.validateForm formData) = true
   ↔ JsString.trim (ReportItemForm.fd_title formData) ≠ ""
     ∧ JsString.trim (ReportItemForm.fd_description formData) ≠ ""
     ∧ JsString.trim (ReportItemForm.fd_contactName formData) ≠ ""
     ∧ ReportItemForm.fd_contactInfo formData ≠ ""
     ∧ (Spec.containsAt (ReportItemForm.fd_contactInfo formData)
        ∨ Spec.tenDigits (ReportItemForm.fd_contactInfo formData)))
  ∧ (snd (ReportItemForm.validateForm formData) = true
     ↔ fst (ReportItemForm.validateForm formData) = []).
Proof.
  assert (snd (ReportItemForm.validateForm formData) = true
          ↔ fst (ReportItemForm.validateForm formData) = []) as Hnil.
  { unfold ReportItemForm.validateForm. simpl. rewrite bool_decide_eq_true.
    by destruct (ReportItemForm.newErrors formData). }
  split; [| exact Hnil]. rewrite Hnil.
  unfold ReportItemForm.validateForm, ReportItemForm.newErrors. simpl.
  rewrite checkContactInfo_nil, !require_nil, !trim_empty.
  split.
  - intros ((((_ & Ht) & Hd) & Hn) & Hc). repeat split; try done.
    intros Hempty. rewrite Hempty in Hc.
    destruct Hc as [Hc|[Hc _]]; [done | done].
  - intros (Ht & Hd & Hn & _ & Hc). tauto.
Qed.

(** C6, as the specification words it, fails: a report whose contact info
    is a lone at sign is accepted, though a lone at sign is neither
    email-shaped nor ten digits. *)
Lemma validateForm_lone_at_counterexample :
  snd (ReportItemForm.validateForm Sample.loneAtForm) = true
  ∧ ¬ Spec.emailShaped (ReportItemForm.fd_contactInfo Sample.loneAtForm)
  ∧ ¬ Spec.tenDigits (ReportItemForm.fd_contactInfo Sample.loneAtForm).
Proof.
  split; [reflexivity |]. split.
  - intros (localPart & domain & Heq & Hlocal & _).
    cbn [Sample.loneAtForm ReportItemForm.fd_contactInfo] in Heq.
    destruct localPart as [|c localPart]; [done |].
    rewrite append_cons in Heq. injection Heq as _ Hrest.
    destruct localPart; by rewrite ?append_nil, ?append_cons in Hrest.
  - by intros [Hlen _].
Qed.

(** ** The item store *)

Section StoreFacts.

Lemma findIndex_found (P : Item → Prop) `{∀ x, Decision (P x)}
    (l : list Item) (i : nat) (x : Item) :
  list_find P l = Some (i, x) →
  Storage.findIndex P l ≠ (-1)%Z ∧ Z.to_nat (Storage.findIndex P l) = i.
Proof. intros Hfind. unfold Storage.findIndex. rewrite Hfind. lia. Qed.

Lemma findIndex_missing (P : Item → Prop) `{∀ x, Decision (P x)} (l : list Item) :
  list_find P l = None → Storage.findIndex P l = (-1)%Z.
Proof. intros Hfind. unfold Storage.findIndex. by rewrite Hfind. Qed.

Lemma updateItem_returns (id0 : string) (updates : Storage.PartialItem) (s : Storage.State) :
  fst (Storage.updateItem id0 updates s) = Normal ().
Proof.
  unfold Storage.updateItem, Storage.bind, Storage.getItems, Storage.read,
    Storage.mutate, Storage.saveItems, Storage.ret.
  destruct s as [[] [stored|] mock]; simpl; by case_bool_decide.
Qed.

Lemma deleteItem_returns (id0 : string) (s : Storage.State) :
  fst (Storage.deleteItem id0 s) = Normal ().
Proof.
  unfold Storage.deleteItem, Storage.bind, Storage.getItems, Storage.read,
    Storage.saveItems.
  by destruct s as [[] [stored|] mock].
Qed.

Lemma assignSpread_replaceFirst (id0 : string) (updates : Storage.PartialItem)
    (l : list Item) :
  (if bool_decide (Storage.findIndex (λ item, id item = id0) l ≠ (-1)%Z)
   then Storage.assignSpread
          (Z.to_nat (Storage.findIndex (λ item, id item = id0) l)) updates l
   else l)
  = Spec.replaceFirst id0 updates l.
Proof.
  unfold Spec.replaceFirst.
  destruct (list_find (λ item, id item = id0) l) as [[i x]|] eqn:Hfind.
  - destruct (findIndex_found _ _ _ _ Hfind) as [Hne ->].
    rewrite bool_decide_eq_true_2 by done.
    apply list_find_Some in Hfind as (Hi & _ & _).
    unfold Storage.assignSpread. by rewrite Hi.
  - rewrite (findIndex_missing _ _ Hfind). by case_bool_decide.
Qed.

Lemma updateItem_current (id0 : string) (updates : Storage.PartialItem) (s : Storage.State) :
  Storage.current (snd (Storage.updateItem id0 updates s))
  = Spec.replaceFirst id0 updates (Storage.current s).
Proof.
  rewrite <- assignSpread_replaceFirst.
  unfold Storage.updateItem, Storage.bind, Storage.getItems, Storage.read,
    Storage.mutate, Storage.saveItems, Storage.ret, Storage.current.
  destruct s as [[] [stored|] mock]; simpl; by case_bool_decide.
Qed.

Lemma deleteItem_current (id0 : string) (s : Storage.State) :
  Storage.current (snd (Storage.deleteItem id0 s))
  = if Storage.window s then filter (λ item, id item ≠ id0) (Storage.current s)
    else Storage.current s.
Proof.
  unfold Storage.deleteItem, Storage.bind, Storage.getItems, Storage.read,
    Storage.saveItems, Storage.current.
  by destruct s as [[] [stored|] mock].
Qed.

Lemma addItem_current (toISOString : Z → string) (now now' : Z)
    (item : Storage.NewItem) (s : Storage.State) :
  ∃ newItem,
    fst (Storage.addItem toISOString now now' item s) = Normal newItem
    ∧ id newItem = pretty now
    ∧ createdAt newItem = toISOString now'
    ∧ Storage.current (snd (Storage.addItem toISOString now now' item s))
      = newItem :: Storage.current s.
Proof.
  unfold Storage.addItem, Storage.bind, Storage.getItems, Storage.mutate,
    Storage.saveItems, Storage.ret, Storage.current.
  destruct s as [[] [stored|] mock]; simpl; eauto.
Qed.

Lemma replaceFirst_missing (id0 : string) (updates : Storage.PartialItem) (l : list Item) :
  id0 ∉ (id <$> l) → Spec.replaceFirst id0 updates l = l.
Proof.
  intros Hmissing. unfold Spec.replaceFirst.
  destruct (list_find (λ item, id item = id0) l) as [[i x]|] eqn:Hfind; [| done].
  apply list_find_Some in Hfind as (Hi & Hx & _).
  destruct Hmissing. apply list_elem_of_fmap. exists x.
  split; [done | by eapply list_elem_of_lookup_2].
Qed.

Lemma filter_other_ids_missing (id0 : string) (l : list Item) :
  id0 ∉ (id <$> l) → filter (λ item, id item ≠ id0) l = l.
Proof.
  induction l as [|x l IH]; [done |].
  rewrite fmap_cons, not_elem_of_cons. intros [Hx Hl].
  rewrite filter_cons_True by done. by rewrite IH.
Qed.

Lemma replaceFirst_length (id0 : string) (updates : Storage.PartialItem) (l : list Item) :
  length (Spec.replaceFirst id0 updates l) = length l.
Proof.
  unfold Spec.replaceFirst.
  destruct (list_find _ l) as [[i x]|]; [apply length_insert | done].
Qed.

(** Position by position: an item stays as it is, unless it is the first one
    with the id, which becomes its spread with the payload. *)
Lemma replaceFirst_lookup (id0 : string) (updates : Storage.PartialItem)
    (l : list Item) (j : nat) (old : Item) :
  l !! j = Some old →
  Spec.replaceFirst id0 updates l !! j = Some old
  ∨ (id old = id0
     ∧ (∀ i x, i < j → l !! i = Some x → id x ≠ id0)
     ∧ Spec.replaceFirst id0 updates l !! j = Some (Storage.spread old updates)).
Proof.
  intros Hj. unfold Spec.replaceFirst.
  destruct (list_find (λ item, id item = id0) l) as [[i x]|] eqn:Hfind; [| by left].
  apply list_find_Some in Hfind as (Hi & Hx & Hfirst).
  destruct (decide (i = j)) as [->|Hne].
  - right. simplify_eq. split; [done |]. split.
    + intros i x Hlt Hix. by eapply Hfirst.
    + apply list_lookup_insert_eq. by eapply lookup_lt_Some.
  - left. by rewrite list_lookup_insert_ne.
Qed.

End StoreFacts.

(** C7, as amended.  For every store state and every id no stored item has,
    [updateItem] and [deleteItem] return normally, without reporting
    anything to the caller, and the item list of the store is the same
    afterwards. *)
Theorem update_delete_missing_id_silent
    (s : Storage.State) (id0 : string) (updates : Storage.PartialItem) :
  id0 ∉ (id <$> Storage.current s) →
  fst (Storage.updateItem id0 updates s) = Normal ()
  ∧ Storage.current (snd (Storage.updateItem id0 updates s)) = Storage.current s
  ∧ fst (Storage.deleteItem id0 s) = Normal ()
  ∧ Storage.current (snd (Storage.deleteItem id0 s)) = Storage.current s.
Proof.
  intros Hmissing. split_and!.
  - apply updateItem_returns.
  - rewrite updateItem_current. by apply replaceFirst_missing.
  - apply deleteItem_returns.
  - rewrite deleteItem_current. destruct (Storage.window s); [| done].
    by apply filter_other_ids_missing.
Qed.

Lemma update_delete_missing_id_silent_witness :
  ("404" ∉ id <$> Storage.current Sample.saved)
  ∧ Storage.updateItem "404" Sample.markClaimed Sample.saved = (Normal (), Sample.saved)
  ∧ fst (Storage.deleteItem "404" Sample.saved) = Normal ()
  ∧ Storage.current (snd (Storage.deleteItem "404" Sample.saved)) = Sample.items.
Proof.
  assert ("404" ∉ (id <$> Storage.current Sample.saved)) as Hmissing
    by (apply (bool_decide_unpack _); by vm_compute).
  split; [exact Hmissing |]. split; [reflexivity |].
  exact (proj2 (proj2 (update_delete_missing_id_silent
                         Sample.saved "404" Sample.markClaimed Hmissing))).
Defined.

(** C7, as the specification words it, fails: no stored item has the id
    ["404"], yet neither [updateItem] nor [deleteItem] throws; both return
    normally. *)
Lemma update_delete_missing_id_counterexample :
  ("404" ∉ id <$> Storage.current Sample.saved)
  ∧ fst (Storage.updateItem "404" Sample.markClaimed Sample.saved) = Normal ()
  ∧ fst (Storage.deleteItem "404" Sample.saved) = Normal ()
  ∧ ¬ (∃ message, fst (Storage.updateItem "404" Sample.markClaimed Sample.saved)
                  = Throw message)
  ∧ ¬ (∃ message, fst (Storage.deleteItem "404" Sample.saved) = Throw message).
Proof.
  split_and!; try reflexivity.
  - apply (bool_decide_unpack _). by vm_compute.
  - by intros [message ?].
  - by intros [message ?].
Qed.

(** C9, as amended.  For every store state, id and payload, [updateItem]
    keeps the length of the item list and changes at most one position: the
    first item with the id, which becomes its spread with the payload; every
    other item stays as it is.  When the payload carries neither [id] nor
    [createdAt], no item's [id] or [createdAt] changes. *)
Theorem update_changes_only_first_match
    (s : Storage.State) (id0 : string) (updates : Storage.PartialItem) :
  let before := Storage.current s in
  let after := Storage.current (snd (Storage.updateItem id0 updates s)) in
  length after = length before
  ∧ (∀ j old, before !! j = Some old →
       after !! j = Some old
       ∨ (id old = id0
          ∧ (∀ i x, i < j → before !! i = Some x → id x ≠ id0)
          ∧ after !! j = Some (Storage.spread old updates)))
  ∧ (Storage.u_id updates = None → Storage.u_createdAt updates = None →
     ∀ j old new, before !! j = Some old → after !! j = Some new →
       id new = id old ∧ createdAt new = createdAt old).
Proof.
  intros before after. subst before after. rewrite updateItem_current.
  split_and!.
  - apply replaceFirst_length.
  - intros j old Hj. by apply replaceFirst_lookup.
  - intros Hid Hcreated j old new Hold Hnew.
    destruct (replaceFirst_lookup id0 updates _ j old Hold) as [H|(_ & _ & H)];
      rewrite H in Hnew; simplify_eq; [done |].
    simpl. by rewrite Hid, Hcreated.
Qed.

Lemma update_changes_only_first_match_witness :
  Storage.current (snd (Storage.updateItem "2" Sample.markClaimed
                          (Storage.initial true Sample.items)))
  = [Sample.backpack; Storage.spread Sample.keys Sample.markClaimed; Sample.calculator]
  ∧ ∀ j old new,
      Sample.items !! j = Some old →
      Storage.current (snd (Storage.updateItem "2" Sample.markClaimed
                              (Storage.initial true Sample.items))) !! j = Some new →
      id new = id old ∧ createdAt new = createdAt old.
Proof.
  split; [reflexivity |].
  exact (proj2 (proj2 (update_changes_only_first_match
                         (Storage.initial true Sample.items) "2" Sample.markClaimed))
           eq_refl eq_refl).
Defined.

(** C9, as the specification words it, fails: a payload that carries [id]
    and [createdAt] overwrites both fields of the matched item. *)
Lemma update_overwrites_id_counterexample :
  Storage.current Sample.saved !! 0 = Some Sample.backpack
  ∧ id Sample.backpack = "1"
  ∧ ∃ new,
      Storage.current (snd (Storage.updateItem "1" Sample.renumber Sample.saved)) !! 0
      = Some new
      ∧ id new = "99" ∧ id new ≠ id Sample.backpack
      ∧ createdAt new ≠ createdAt Sample.backpack.
Proof.
  split; [reflexivity |]. split; [reflexivity |].
  eexists. split; [reflexivity |]. by split_and!.
Qed.

(** *** First read and repeated reads *)

Lemma run_window (toISOString : Z → string) (c : Storage.call) (s : Storage.State) :
  Storage.window (Storage.run toISOString c s) = Storage.window s.
Proof.
  destruct c; simpl;
    unfold Storage.addItem, Storage.updateItem, Storage.deleteItem, Storage.bind,
      Storage.getItems, Storage.read, Storage.mutate, Storage.saveItems, Storage.ret;
    destruct s as [[] [stored|] mock]; simpl; try done; by case_bool_decide.
Qed.

(** In a browser every call leaves an item list under the storage key. *)
Lemma run_stores (toISOString : Z → string) (c : Storage.call) (s : Storage.State) :
  Storage.window s = true →
  is_Some (Storage.localStorage (Storage.run toISOString c s)).
Proof.
  intros Hw. destruct c; simpl;
    unfold Storage.addItem, Storage.updateItem, Storage.deleteItem, Storage.bind,
      Storage.getItems, Storage.read, Storage.mutate, Storage.saveItems, Storage.ret;
    destruct s as [[] [stored|] mock]; simpl in *; try done;
    try case_bool_decide; simpl; eauto.
Qed.

Lemma runAll_snoc (toISOString : Z → string) (cs : list Storage.call)
    (c : Storage.call) (s : Storage.State) :
  Storage.runAll toISOString (cs ++ [c]) s
  = Storage.run toISOString c (Storage.runAll toISOString cs s).
Proof. unfold Storage.runAll. by rewrite fold_left_app. Qed.

Lemma runAll_window (toISOString : Z → string) (cs : list Storage.call) (s : Storage.State) :
  Storage.window (Storage.runAll toISOString cs s) = Storage.window s.
Proof.
  induction cs as [|c cs IH] using rev_ind; [done |].
  by rewrite runAll_snoc, run_window.
Qed.

(** While the key is absent in a browser, nothing has happened yet. *)
Lemma runAll_absent (toISOString : Z → string) (cs : list Storage.call)
    (mockData : list Item) :
  Storage.localStorage (Storage.runAll toISOString cs (Storage.initial true mockData)) = None →
  Storage.runAll toISOString cs (Storage.initial true mockData)
  = Storage.initial true mockData.
Proof.
  destruct cs as [|c cs _] using rev_ind; [done |].
  rewrite runAll_snoc. intros Hnone.
  destruct (run_stores toISOString c
              (Storage.runAll toISOString cs (Storage.initial true mockData)))
    as [l Hl]; [by rewrite runAll_window |].
  congruence.
Qed.

Lemma getItems_twice (s : Storage.State) :
  ∃ a1 a2,
    fst (Storage.getItems s) = Normal a1
    ∧ fst (Storage.getItems (snd (Storage.getItems s))) = Normal a2
    ∧ Storage.elements (snd (Storage.getItems s)) a1
      = Storage.elements (snd (Storage.getItems (snd (Storage.getItems s)))) a2.
Proof.
  unfold Storage.getItems.
  destruct s as [[] [stored|] mock]; simpl; eauto.
Qed.

(** C10.  In a browser, as long as the storage key is absent (no call of
    the module has stored an item list since it was loaded), [getItems]
    returns the mock dataset and stores it under the key.  In every state,
    two [getItems] calls in a row return the same item list. *)
Theorem getItems_initializes_with_mock_data
    (toISOString : Z → string) (mockData : list Item) (calls : list Storage.call) :
  let s := Storage.runAll toISOString calls (Storage.initial true mockData) in
  (Storage.localStorage s = None →
   ∃ a, Storage.getItems s = (Normal a, Storage.withStorage s mockData)
        ∧ Storage.elements (Storage.withStorage s mockData) a = mockData
        ∧ Storage.localStorage (snd (Storage.getItems s)) = Some mockData)
  ∧ ∀ s' : Storage.State,
      ∃ a1 a2,
        fst (Storage.getItems s') = Normal a1
        ∧ fst (Storage.getItems (snd (Storage.getItems s'))) = Normal a2
        ∧ Storage.elements (snd (Storage.getItems s')) a1
          = Storage.elements (snd (Storage.getItems (snd (Storage.getItems s')))) a2.
Proof.
  intros s. split; [| exact getItems_twice].
  intros Hnone. subst s. rewrite (runAll_absent _ _ _ Hnone).
  by exists Storage.TheMockItems.
Qed.

Lemma getItems_initializes_with_mock_data_witness :
  Storage.localStorage (Storage.initial true Sample.items) = None
  ∧ ∃ a, Storage.getItems (Storage.initial true Sample.items)
         = (Normal a, Storage.withStorage (Storage.initial true Sample.items) Sample.items)
         ∧ Storage.elements
             (Storage.withStorage (Storage.initial true Sample.items) Sample.items) a
           = Sample.items
         ∧ Storage.localStorage (snd (Storage.getItems (Storage.initial true Sample.items)))
           = Some Sample.items.
Proof.
  split; [reflexivity |].
  exact (proj1 (getItems_initializes_with_mock_data IsoDate.toISOString Sample.items [])
           eq_refl).
Defined.

(** *** Ids of created items *)

(** A creation keeps the ids distinct when the clock reading prints to an id
    no stored item has. *)
Lemma addItem_fresh_id_NoDup (toISOString : Z → string) (now now' : Z)
    (item : Storage.NewItem) (s : Storage.State) :
  pretty now ∉ (id <$> Storage.current s) →
  NoDup (id <$> Storage.current s) →
  NoDup (id <$> Storage.current (snd (Storage.addItem toISOString now now' item s))).
Proof.
  intros Hfresh Hnodup.
  destruct (addItem_current toISOString now now' item s) as (newItem & _ & Hid & _ & ->).
  rewrite fmap_cons, Hid. by apply NoDup_cons.
Qed.

(** C8 fails on the code: two creations whose [Date.now()] readings fall in
    the same millisecond get the same id, although the ids were distinct
    before. *)
Theorem addItem_same_millisecond_duplicate_ids :
  let s := Storage.runAll IsoDate.toISOString
             [Storage.AddItem 1709800000000 1709800000000 Sample.umbrella;
              Storage.AddItem 1709800000000 1709800000000 Sample.bottle]
             Sample.saved in
  NoDup (id <$> Storage.current Sample.saved)
  ∧ id <$> Storage.current s = ["1709800000000"; "1709800000000"; "1"; "2"; "3"]
  ∧ ¬ NoDup (id <$> Storage.current s).
Proof.
  split_and!.
  - apply (bool_decide_unpack _). by vm_compute.
  - by vm_compute.
  - apply (bool_decide_unpack _). by vm_compute.
Qed.

(** ** Frequency tables of the dashboard *)

Section TallyFacts.

Lemma elem_of_firstSeen (k : string) (vals : list string) :
  k ∈ Spec.firstSeen vals ↔ k ∈ vals.
Proof.
  induction vals as [|a vals IH]; simpl; [done |].
  rewrite !elem_of_cons, list_elem_of_filter, IH.
  destruct (decide (k = a)); tauto.
Qed.

Lemma NoDup_firstSeen (vals : list string) : NoDup (Spec.firstSeen vals).
Proof.
  induction vals as [|a vals IH]; simpl; [constructor |].
  apply NoDup_cons. split.
  - rewrite list_elem_of_filter. by intros [? _].
  - by apply NoDup_filter.
Qed.

Lemma firstSeen_snoc (vals : list string) (k : string) :
  Spec.firstSeen (vals ++ [k])
  = if decide (k ∈ vals) then Spec.firstSeen vals else Spec.firstSeen vals ++ [k].
Proof.
  induction vals as [|a vals IH]; simpl; [done |].
  rewrite IH. destruct (decide (k ∈ vals)) as [Hin|Hout].
  - by rewrite decide_True by (by right).
  - rewrite filter_app, filter_cons, filter_nil.
    destruct (decide (k = a)) as [->|Hne].
    + rewrite decide_False by (by intros []).
      rewrite decide_True by (by left). by rewrite app_nil_r.
    + rewrite decide_True by done.
      by rewrite decide_False by (rewrite elem_of_cons; tauto).
Qed.

Lemma occurrences_snoc (k k' : string) (vals : list string) :
  Spec.occurrences k' (vals ++ [k])
  = Spec.occurrences k' vals + (if decide (k = k') then 1 else 0).
Proof.
  unfold Spec.occurrences.
  rewrite filter_app, length_app, filter_cons, filter_nil.
  by destruct (decide (k = k')).
Qed.

Lemma occurrences_absent (k : string) (vals : list string) :
  k ∉ vals → Spec.occurrences k vals = 0.
Proof.
  unfold Spec.occurrences. induction vals as [|a vals IH]; [done |].
  rewrite not_elem_of_cons. intros [Hne Hout].
  rewrite filter_cons_False by congruence. by apply IH.
Qed.

(** Tables given by a list of distinct keys and a function to their slots. *)
Lemma own_tabulated (g : string → JsObject.value) (ks : list string) (k : string) :
  JsObject.own ((λ k', (k', g k')) <$> ks) k
  = if decide (k ∈ ks) then Some (g k) else None.
Proof.
  induction ks as [|a ks IH]; csimpl; [done |].
  case_bool_decide as Ha.
  - subst a. by rewrite decide_True by (by left).
  - rewrite IH. destruct (decide (k ∈ ks)) as [Hin|Hout].
    + by rewrite decide_True by (by right).
    + rewrite decide_False; [done |].
      rewrite elem_of_cons. intros [->|]; done.
Qed.

Lemma assign_absent (g : string → JsObject.value) (ks : list string)
    (k : string) (v : JsObject.value) :
  k ∉ ks →
  JsObject.assign ((λ k', (k', g k')) <$> ks) k v
  = ((λ k', (k', g k')) <$> ks) ++ [(k, v)].
Proof.
  induction ks as [|a ks IH]; csimpl; [done |].
  rewrite not_elem_of_cons. intros [Hne Hout].
  rewrite bool_decide_eq_false_2 by congruence. by rewrite IH.
Qed.

Lemma assign_present (g : string → JsObject.value) (ks : list string)
    (k : string) (v : JsObject.value) :
  NoDup ks → k ∈ ks →
  JsObject.assign ((λ k', (k', g k')) <$> ks) k v
  = (λ k', (k', if decide (k' = k) then v else g k')) <$> ks.
Proof.
  induction ks as [|a ks IH]; intros Hnodup Hin; [by apply elem_of_nil in Hin |].
  apply NoDup_cons in Hnodup as [Ha Hnodup]. csimpl.
  case_bool_decide as Heq.
  - subst a. rewrite decide_True by done. f_equal.
    apply list_fmap_ext. intros i k' Hk'.
    rewrite decide_False; [done |]. intros ->.
    by apply list_elem_of_lookup_2 in Hk'.
  - rewrite decide_False by done. f_equal. apply IH; [done |].
    apply elem_of_cons in Hin as [->|]; done.
Qed.

End TallyFacts.

Section TopFacts.

Lemma plainKey_get (o : JsObject.table) (k : string) :
  Spec.plainKey k → JsObject.get o k = JsObject.own o k.
Proof.
  intros [_ Hproto]. unfold JsObject.get.
  destruct (JsObject.own o k); [done |].
  by rewrite bool_decide_eq_false_2.
Qed.

Lemma plainKey_set (o : JsObject.table) (k : string) (v : JsObject.value) :
  Spec.plainKey k → JsObject.set o k v = JsObject.assign o k v.
Proof.
  intros [_ Hproto]. unfold JsObject.set.
  rewrite bool_decide_eq_false_2; [done |].
  intros ->. apply Hproto. apply (bool_decide_unpack _). by vm_compute.
Qed.

Lemma tally_snoc (f : Item → string) (items : list Item) (x : Item) :
  Dashboard.tally f (items ++ [x])
  = JsObject.set (Dashboard.tally f items) (f x)
      (JsObject.orZeroPlusOne (JsObject.get (Dashboard.tally f items) (f x))).
Proof. unfold Dashboard.tally. by rewrite fold_left_app. Qed.

(** With plain keys, the table that [forEach] builds is the frequency count
    in first-encountered order. *)
Lemma tally_frequencies (f : Item → string) (items : list Item) :
  Forall Spec.plainKey (f <$> items) →
  Dashboard.tally f items = Spec.frequencies (f <$> items).
Proof.
  induction items as [|x items IH] using rev_ind; [done |].
  rewrite fmap_app, Forall_app. csimpl. rewrite Forall_singleton.
  intros [Hplain Hx].
  rewrite tally_snoc, IH by done. simpl.
  rewrite plainKey_get, plainKey_set by done.
  unfold Spec.frequencies.
  rewrite own_tabulated, firstSeen_snoc.
  set (vals := f <$> items). set (k := f x).
  destruct (decide (k ∈ vals)) as [Hin|Hout].
  - rewrite decide_True by (by apply elem_of_firstSeen). simpl.
    rewrite assign_present by (apply NoDup_firstSeen || by apply elem_of_firstSeen).
    apply list_fmap_ext. intros i k' _. rewrite occurrences_snoc.
    destruct (decide (k' = k)) as [->|Hne].
    + by rewrite decide_True.
    + rewrite decide_False by done. by rewrite Nat.add_0_r.
  - rewrite decide_False by (by rewrite elem_of_firstSeen). simpl.
    rewrite assign_absent by (by rewrite elem_of_firstSeen).
    rewrite fmap_app. simpl. f_equal.
    + apply list_fmap_ext. intros i k' Hk'. rewrite occurrences_snoc.
      rewrite decide_False; [by rewrite Nat.add_0_r |].
      intros ->. apply Hout. apply elem_of_firstSeen.
      by eapply list_elem_of_lookup_2.
    + rewrite occurrences_snoc, occurrences_absent, decide_True by done. done.
Qed.

Lemma entries_plain (o : JsObject.table) :
  Forall (λ e, JsObject.arrayIndex (fst e) = None) o → JsObject.entries o = o.
Proof.
  intros Hplain. unfold JsObject.entries.
  assert (filter (λ e, JsObject.isIndexKey e) o = []) as ->.
  { induction Hplain as [|e o He Ho IH]; [done |].
    rewrite filter_cons_False; [done |].
    unfold JsObject.isIndexKey. rewrite He. by intros []. }
  simpl. induction Hplain as [|e o He Ho IH]; [done |].
  rewrite filter_cons_True; [by rewrite IH |].
  unfold JsObject.isIndexKey. rewrite He. by intros [].
Qed.

Lemma frequencies_keys_plain (vals : list string) :
  Forall Spec.plainKey vals →
  Forall (λ e, JsObject.arrayIndex (fst e) = None) (Spec.frequencies vals).
Proof.
  rewrite !Forall_forall. intros Hplain e.
  unfold Spec.frequencies. rewrite list_elem_of_fmap.
  intros (k & -> & Hk). simpl.
  apply (proj1 (elem_of_firstSeen _ _)) in Hk. by apply Hplain in Hk as [? _].
Qed.

Lemma frequencies_numbers (vals : list string) :
  Forall (λ e, ∃ n, snd e = JsObject.VNumber n) (Spec.frequencies vals).
Proof.
  rewrite Forall_forall. intros e.
  unfold Spec.frequencies. rewrite list_elem_of_fmap.
  intros (k & -> & _). simpl. eauto.
Qed.

#[local] Instance notMoreFrequent_trans : Transitive Spec.notMoreFrequent.
Proof.
  intros a b c (x & y & Ha & Hb & ?) (y' & z & Hb' & Hc & ?).
  exists x, z. rewrite Hb in Hb'. simplify_eq. repeat split; [done | done | lia].
Qed.

(** Sorting a table of numbers by [b[1] - a[1]] and cutting it after ten
    entries ranks it. *)
Lemma sort_slice_ranking (counts : list (string * JsObject.value)) :
  Forall (λ e, ∃ n, snd e = JsObject.VNumber n) counts →
  Spec.ranking counts
    (JsArray.slice0 10
       (JsArray.sort (λ a b, JsObject.minus (snd b) (snd a)) counts)).
Proof.
  intros Hnum.
  exists (JsArray.sort (λ a b, JsObject.minus (snd b) (snd a)) counts).
  split_and!.
  - done.
  - apply sort_Permutation.
  - intros i j a b Hij Hi Hj.
    eapply (StronglySorted_lookup Spec.notMoreFrequent _ i j a b); [| done..].
    apply Sorted_StronglySorted; [intros x y z; apply notMoreFrequent_trans |].
    eapply sort_Sorted; [| | exact Hnum].
    + intros a' b' [x Hx] [y Hy]. unfold JsArray.keeps.
      rewrite Hx, Hy. simpl. rewrite bool_decide_eq_true. intros ?.
      exists x, y. repeat split; [done | done | lia].
    + intros a' b' [x Hx] [y Hy]. unfold JsArray.keeps.
      rewrite Hx, Hy. simpl. rewrite bool_decide_eq_false. intros ?.
      exists y, x. repeat split; [done | done | lia].
  - intros n. apply sort_stable. intros x y Hx Hy.
    unfold JsArray.keeps. rewrite Hx, Hy. simpl.
    apply bool_decide_eq_true. lia.
Qed.

Lemma top_tally_ranking (f : Item → string) (items : list Item) :
  Forall Spec.plainKey (f <$> items) →
  Spec.ranking (Spec.frequencies (f <$> items)) (Dashboard.top (Dashboard.tally f items)).
Proof.
  intros Hplain. unfold Dashboard.top.
  rewrite tally_frequencies by done.
  rewrite entries_plain by (by apply frequencies_keys_plain).
  apply sort_slice_ranking, frequencies_numbers.
Qed.

End TopFacts.

(** C5, as amended.  For every item list whose categories and locations are
    plain keys (no array-index string such as ["101"], no name inherited
    from [Object.prototype]), [topCategories] and [topLocations] are the
    per-value frequency counts, sorted descending by count, with equal
    counts in first-encountered order, cut after ten entries. *)
Theorem top_lists_rank_frequencies (items : list Item) :
  Forall Spec.plainKey (category <$> items) →
  Forall Spec.plainKey (location <$> items) →
  Spec.ranking (Spec.frequencies (category <$> items))
    (Dashboard.topCategories (Dashboard.calculateLocalData items))
  ∧ Spec.ranking (Spec.frequencies (location <$> items))
      (Dashboard.topLocations (Dashboard.calculateLocalData items)).
Proof.
  intros Hcategory Hlocation. split; by apply top_tally_ranking.
Qed.

Lemma top_lists_rank_frequencies_witness :
  Dashboard.topLocations (Dashboard.calculateLocalData Sample.items)
  = [("Library - 2nd Floor", JsObject.VNumber 2); ("Gym", JsObject.VNumber 1)]
  ∧ Spec.ranking (Spec.frequencies (category <$> Sample.items))
      (Dashboard.topCategories (Dashboard.calculateLocalData Sample.items))
  ∧ Spec.ranking (Spec.frequencies (location <$> Sample.items))
      (Dashboard.topLocations (Dashboard.calculateLocalData Sample.items)).
Proof.
  split; [reflexivity |].
  apply (top_lists_rank_frequencies Sample.items);
    unfold Spec.plainKey; apply (bool_decide_unpack _); by vm_compute.
Defined.

(** C5, as the specification words it, fails: of two locations that occur
    once each, ["204"] is encountered first, yet ["101"] comes first in
    [topLocations], because array-index keys are listed in numeric order. *)
Lemma top_locations_room_numbers_counterexample :
  Dashboard.topLocations (Dashboard.calculateLocalData [Sample.scarf; Sample.notebook])
  = [("101", JsObject.VNumber 1); ("204", JsObject.VNumber 1)]
  ∧ Spec.frequencies (location <$> [Sample.scarf; Sample.notebook])
    = [("204", JsObject.VNumber 1); ("101", JsObject.VNumber 1)]
  ∧ ¬ Spec.ranking (Spec.frequencies (location <$> [Sample.scarf; Sample.notebook]))
        (Dashboard.topLocations
           (Dashboard.calculateLocalData [Sample.scarf; Sample.notebook])).
Proof.
  split; [reflexivity |]. split; [reflexivity |].
  intros (ranked & Htop & Hperm & _ & Hstable).
  change (Spec.frequencies (location <$> [Sample.scarf; Sample.notebook]))
    with [("204", JsObject.VNumber 1); ("101", JsObject.VNumber 1)] in *.
  change (Dashboard.topLocations
            (Dashboard.calculateLocalData [Sample.scarf; Sample.notebook]))
    with [("101", JsObject.VNumber 1); ("204", JsObject.VNumber 1)] in Htop.
  specialize (Hstable 1).
  rewrite take_ge in Htop by (apply Permutation_length in Hperm; simpl in Hperm; lia).
  subst ranked. by vm_compute in Hstable.
Qed.

(** * Further properties of the code *)

(** ** The item store: reads, writes and their round trips *)

Section StoreRoundTrips.

Lemma getItems_returns_current (s : Storage.State) :
  ∃ a, fst (Storage.getItems s) = Normal a
       ∧ Storage.elements (snd (Storage.getItems s)) a = Storage.current s
       ∧ Storage.current (snd (Storage.getItems s)) = Storage.current s.
Proof.
  unfold Storage.getItems, Storage.current.
  destruct s as [[] [stored|] mock]; simpl; eauto.
Qed.

Lemma filter_ids_absent (id0 : string) (l : list Item) :
  id0 ∉ (id <$> filter (λ item, id item ≠ id0) l).
Proof.
  rewrite list_elem_of_fmap. intros (item & Hid & Hin).
  apply list_elem_of_filter in Hin as [Hne _]. by apply Hne.
Qed.

Lemma NoDup_ids_filter (P : Item → Prop) `{∀ x, Decision (P x)} (l : list Item) :
  NoDup (id <$> l) → NoDup (id <$> filter P l).
Proof.
  induction l as [|x l IH]; [done |].
  rewrite fmap_cons, NoDup_cons. intros [Hx Hl].
  rewrite filter_cons. destruct (decide (P x)); [| by apply IH].
  rewrite fmap_cons, NoDup_cons. split; [| by apply IH].
  intros Hin. apply Hx. apply list_elem_of_fmap in Hin as (y & Hy & Hin).
  apply list_elem_of_filter in Hin as [_ Hin].
  apply list_elem_of_fmap. eauto.
Qed.

Lemma replaceFirst_ids (id0 : string) (updates : Storage.PartialItem) (l : list Item) :
  Storage.u_id updates = None →
  id <$> Spec.replaceFirst id0 updates l = id <$> l.
Proof.
  intros Hid. unfold Spec.replaceFirst.
  destruct (list_find (λ item, id item = id0) l) as [[i x]|] eqn:Hfind; [| done].
  apply list_find_Some in Hfind as (Hi & _ & _).
  rewrite list_fmap_insert. apply list_insert_id.
  rewrite list_lookup_fmap, Hi. simpl. by rewrite Hid.
Qed.

End StoreRoundTrips.

(** X1.  [getItems] returns the item list of the store and leaves it as it
    is.  In a browser [saveItems] makes its argument the item list of the
    store, whatever was there; without a [window] it changes nothing. *)
Theorem saveItems_then_getItems (s : Storage.State) (l : list Item) :
  (∃ a, fst (Storage.getItems s) = Normal a
        ∧ Storage.elements (snd (Storage.getItems s)) a = Storage.current s
        ∧ Storage.current (snd (Storage.getItems s)) = Storage.current s)
  ∧ (∃ a, fst (Storage.getItems (snd (Storage.saveItems (Storage.Own l) s))) = Normal a
          ∧ Storage.elements
              (snd (Storage.getItems (snd (Storage.saveItems (Storage.Own l) s)))) a
            = if Storage.window s then l else Storage.mockItems s)
  ∧ (Storage.window s = false → snd (Storage.saveItems (Storage.Own l) s) = s).
Proof.
  split; [apply getItems_returns_current |]. split.
  - destruct (getItems_returns_current (snd (Storage.saveItems (Storage.Own l) s)))
      as (a & Ha & Hel & _).
    exists a. split; [done |]. rewrite Hel.
    unfold Storage.saveItems, Storage.current. by destruct s as [[] [stored|] mock].
  - intros Hw. unfold Storage.saveItems. by rewrite Hw.
Qed.

Lemma saveItems_then_getItems_witness :
  snd (Storage.saveItems (Storage.Own Sample.items) (Storage.initial false []))
  = Storage.initial false [].
Proof.
  exact (proj2 (proj2 (saveItems_then_getItems (Storage.initial false []) Sample.items))
           eq_refl).
Defined.

(** X2.  [addItem] returns the item it stores: the payload, every field of
    it, with the decimal clock reading as id and the ISO time as
    [createdAt].  Afterwards the store holds that item in front of the items
    it held before. *)
Theorem addItem_prepends_new_item (toISOString : Z → string) (now now' : Z)
    (item : Storage.NewItem) (s : Storage.State) :
  let newItem := Spec.created item (pretty now) (toISOString now') in
  fst (Storage.addItem toISOString now now' item s) = Normal newItem
  ∧ Storage.current (snd (Storage.addItem toISOString now now' item s))
    = newItem :: Storage.current s.
Proof.
  unfold Storage.addItem, Storage.bind, Storage.getItems, Storage.mutate,
    Storage.saveItems, Storage.ret, Storage.current, Spec.created.
  by destruct s as [[] [stored|] mock].
Qed.

(** X3.  In a browser, after [deleteItem] no stored item has the id, every
    item with another id is still there, and the remaining items are in the
    order they had. *)
Theorem deleteItem_removes_every_match (s : Storage.State) (id0 : string) :
  Storage.window s = true →
  let after := Storage.current (snd (Storage.deleteItem id0 s)) in
  (id0 ∉ id <$> after)
  ∧ after `sublist_of` Storage.current s
  ∧ (∀ item, item ∈ after ↔ item ∈ Storage.current s ∧ id item ≠ id0).
Proof.
  intros Hw after. subst after. rewrite deleteItem_current, Hw. split_and!.
  - apply filter_ids_absent.
  - apply sublist_filter.
  - intros item. rewrite list_elem_of_filter. tauto.
Qed.

Lemma deleteItem_removes_every_match_witness :
  Storage.current (snd (Storage.deleteItem "2" Sample.saved))
  = [Sample.backpack; Sample.calculator]
  ∧ "2" ∉ (id <$> Storage.current (snd (Storage.deleteItem "2" Sample.saved))).
Proof.
  split; [reflexivity |].
  exact (proj1 (deleteItem_removes_every_match Sample.saved "2" eq_refl)).
Defined.

(** X4.  Without a [window] a [deleteItem] is lost: the state is the same
    afterwards, also when an item has the id.  An [addItem] is not lost
    there: the item it returns, which is the payload with its id and
    creation time, is put in front of the shared [mockItems] array, and so
    in front of what [getItems] returns from then on. *)
Theorem deleteItem_without_window_is_lost (toISOString : Z → string)
    (s : Storage.State) (id0 : string) (now now' : Z) (item : Storage.NewItem) :
  Storage.window s = false →
  let newItem := Spec.created item (pretty now) (toISOString now') in
  let after := snd (Storage.addItem toISOString now now' item s) in
  snd (Storage.deleteItem id0 s) = s
  ∧ fst (Storage.addItem toISOString now now' item s) = Normal newItem
  ∧ Storage.mockItems after = newItem :: Storage.mockItems s
  ∧ Storage.localStorage after = Storage.localStorage s
  ∧ fst (Storage.bind Storage.getItems Storage.read after)
    = Normal (newItem :: Storage.mockItems s).
Proof.
  intros Hw. destruct s as [w stored mock]. simpl in Hw. subst w.
  by split_and!.
Qed.

Lemma deleteItem_without_window_is_lost_witness :
  let s := Storage.initial false Sample.items in
  let after := snd (Storage.addItem IsoDate.toISOString 1709800000000 1709800000000
                      Sample.umbrella s) in
  ("1" ∈ id <$> Storage.current s)
  ∧ snd (Storage.deleteItem "1" s) = s
  ∧ id <$> Storage.mockItems after = ["1709800000000"; "1"; "2"; "3"]
  ∧ fst (Storage.bind Storage.getItems Storage.read after)
    = Normal (Spec.created Sample.umbrella "1709800000000" "2024-03-07T08:26:40.000Z"
              :: Sample.items).
Proof.
  intros s after.
  pose proof (deleteItem_without_window_is_lost IsoDate.toISOString s "1"
                1709800000000 1709800000000 Sample.umbrella eq_refl)
    as (Hdelete & _ & Hmock & _ & Hread).
  split; [apply (bool_decide_unpack _); by vm_compute |].
  split; [exact Hdelete |]. split; [| exact Hread].
  subst after. rewrite Hmock. by vm_compute.
Defined.

(** X5.  In a browser, creating an item and then deleting the id it got
    gives back the item list there was, provided no stored item had that
    id. *)
Theorem addItem_then_deleteItem (toISOString : Z → string) (now now' : Z)
    (item : Storage.NewItem) (s : Storage.State) :
  Storage.window s = true →
  pretty now ∉ (id <$> Storage.current s) →
  Storage.current
    (snd (Storage.deleteItem (pretty now)
            (snd (Storage.addItem toISOString now now' item s))))
  = Storage.current s.
Proof.
  intros Hw Hfresh.
  destruct (addItem_current toISOString now now' item s) as (newItem & _ & Hid & _ & Hcur).
  rewrite deleteItem_current, Hcur.
  assert (Storage.window (snd (Storage.addItem toISOString now now' item s)) = true) as ->.
  { change (Storage.window (Storage.run toISOString (Storage.AddItem now now' item) s) = true).
    by rewrite run_window. }
  rewrite filter_cons_False by (intros Hne; by apply Hne).
  by apply filter_other_ids_missing.
Qed.

Lemma addItem_then_deleteItem_witness :
  Storage.current
    (snd (Storage.deleteItem "1709800000000"
            (snd (Storage.addItem IsoDate.toISOString 1709800000000 1709800000000
                    Sample.umbrella Sample.saved))))
  = Sample.items.
Proof.
  apply (addItem_then_deleteItem IsoDate.toISOString 1709800000000 1709800000000
           Sample.umbrella Sample.saved eq_refl).
  apply (bool_decide_unpack _). by vm_compute.
Defined.

(** X6.  When an item has the id and the payload carries no [id], looking
    the id up after [updateItem] finds, at the same position, the item that
    was first found before, merged with the payload. *)
Theorem updateItem_then_find (s : Storage.State) (id0 : string)
    (updates : Storage.PartialItem) (i : nat) (old : Item) :
  list_find (λ item, id item = id0) (Storage.current s) = Some (i, old) →
  Storage.u_id updates = None →
  list_find (λ item, id item = id0)
    (Storage.current (snd (Storage.updateItem id0 updates s)))
  = Some (i, Storage.spread old updates).
Proof.
  intros Hfind Hid. rewrite updateItem_current.
  unfold Spec.replaceFirst. rewrite Hfind.
  apply list_find_Some in Hfind as (Hi & Hold & Hfirst).
  apply list_find_Some. split_and!.
  - apply list_lookup_insert_eq. by eapply lookup_lt_Some.
  - simpl. by rewrite Hid.
  - intros j y Hj Hlt. rewrite list_lookup_insert_ne in Hj by lia.
    by eapply Hfirst.
Qed.

Lemma updateItem_then_find_witness :
  list_find (λ item, id item = "2")
    (Storage.current (snd (Storage.updateItem "2" Sample.markClaimed
                             (Storage.initial true Sample.items))))
  = Some (1, Storage.spread Sample.keys Sample.markClaimed)
  ∧ status (Storage.spread Sample.keys Sample.markClaimed) = "claimed".
Proof.
  split; [| reflexivity].
  exact (updateItem_then_find (Storage.initial true Sample.items) "2" Sample.markClaimed
           1 Sample.keys eq_refl eq_refl).
Defined.

(** X7.  Distinct ids stay distinct under [deleteItem], and under an
    [updateItem] whose payload carries no [id], which leaves the sequence of
    ids as it is. *)
Theorem delete_and_update_keep_ids_distinct (s : Storage.State) (id0 : string)
    (updates : Storage.PartialItem) :
  NoDup (id <$> Storage.current s) →
  Storage.u_id updates = None →
  NoDup (id <$> Storage.current (snd (Storage.deleteItem id0 s)))
  ∧ id <$> Storage.current (snd (Storage.updateItem id0 updates s))
    = id <$> Storage.current s.
Proof.
  intros Hnodup Hid. split.
  - rewrite deleteItem_current. destruct (Storage.window s); [| done].
    by apply NoDup_ids_filter.
  - rewrite updateItem_current. by apply replaceFirst_ids.
Qed.

Lemma delete_and_update_keep_ids_distinct_witness :
  NoDup (id <$> Storage.current (snd (Storage.deleteItem "2" Sample.saved)))
  ∧ id <$> Storage.current (snd (Storage.updateItem "2" Sample.markClaimed Sample.saved))
    = ["1"; "2"; "3"].
Proof.
  apply (delete_and_update_keep_ids_distinct Sample.saved "2" Sample.markClaimed);
    [apply (bool_decide_unpack _); by vm_compute | reflexivity].
Defined.

Lemma run_keeps_mockItems (toISOString : Z → string) (c : Storage.call)
    (s : Storage.State) :
  Storage.window s = true → is_Some (Storage.localStorage s) →
  Storage.mockItems (Storage.run toISOString c s) = Storage.mockItems s.
Proof.
  intros Hw [stored Hs]. destruct s as [w st mock]. simpl in *. subst w st.
  destruct c; simpl;
    unfold Storage.addItem, Storage.updateItem, Storage.deleteItem, Storage.bind,
      Storage.getItems, Storage.read, Storage.mutate, Storage.saveItems, Storage.ret;
    simpl; try done; by case_bool_decide.
Qed.

(** X8.  In a browser whose storage key is set, no sequence of calls changes
    the [mockItems] array.  On the state the module is loaded in, however,
    [addItem] puts the new item into [mockItems] itself, because [getItems]
    handed out that very array. *)
Theorem mockItems_changed_only_before_first_save (toISOString : Z → string)
    (s : Storage.State) (calls : list Storage.call) :
  Storage.window s = true →
  is_Some (Storage.localStorage s) →
  Storage.mockItems (Storage.runAll toISOString calls s) = Storage.mockItems s
  ∧ ∀ mockData now now' item,
      ∃ newItem,
        fst (Storage.addItem toISOString now now' item (Storage.initial true mockData))
        = Normal newItem
        ∧ Storage.mockItems
            (snd (Storage.addItem toISOString now now' item (Storage.initial true mockData)))
          = newItem :: mockData.
Proof.
  intros Hw Hstored. split.
  - induction calls as [|c calls IH] using rev_ind; [done |].
    rewrite runAll_snoc, run_keeps_mockItems; [done | by rewrite runAll_window |].
    destruct calls as [|c' calls _] using rev_ind; [done |].
    rewrite runAll_snoc. apply run_stores. by rewrite runAll_window.
  - intros mockData now now' item. eexists. split; reflexivity.
Qed.

Lemma mockItems_changed_only_before_first_save_witness :
  Storage.mockItems
    (Storage.runAll IsoDate.toISOString
       [Storage.AddItem 1709800000000 1709800000000 Sample.umbrella;
        Storage.UpdateItem "1" Sample.markClaimed; Storage.DeleteItem "2"]
       Sample.saved)
  = [].
Proof.
  exact (proj1 (mockItems_changed_only_before_first_save IsoDate.toISOString Sample.saved
                  [Storage.AddItem 1709800000000 1709800000000 Sample.umbrella;
                   Storage.UpdateItem "1" Sample.markClaimed; Storage.DeleteItem "2"]
                  eq_refl (ex_intro _ Sample.items eq_refl))).
Defined.

(** ** Pages of the item list *)

Section PageFacts.

Lemma slice_take_drop {A} (a b : Z) (l : list A) :
  (0 ≤ a)%Z → (a ≤ b)%Z →
  JsArray.slice a b l = take (Z.to_nat (b - a)) (drop (Z.to_nat a) l).
Proof.
  intros Ha Hab. unfold JsArray.slice, JsArray.relativeIndex.
  assert ((a <? 0)%Z = false) as -> by (apply Z.ltb_ge; lia).
  assert ((b <? 0)%Z = false) as -> by (apply Z.ltb_ge; lia).
  destruct (decide (Z.of_nat (length l) ≤ a)%Z) as [Hlen|Hlen].
  - rewrite !(drop_ge l) by lia. by rewrite !take_nil.
  - rewrite (Z.min_l a) by lia.
    destruct (decide (b ≤ Z.of_nat (length l))%Z) as [Hb|Hb].
    + by rewrite (Z.min_l b) by lia.
    + rewrite (Z.min_r b) by lia.
      rewrite !take_ge; [done | rewrite length_drop; lia | rewrite length_drop; lia].
Qed.

Lemma currentItems_page (l : list Item) (p : Z) :
  (1 ≤ p)%Z →
  ItemList.currentItems l p = take 9 (drop (9 * Z.to_nat (p - 1)) l).
Proof.
  intros Hp. unfold ItemList.currentItems, ItemList.endIndex, ItemList.startIndex,
    ItemList.itemsPerPage.
  rewrite slice_take_drop by lia. f_equal; [lia |]. f_equal. lia.
Qed.

Lemma concat_pages (l : list Item) (n : nat) :
  concat ((λ i, take 9 (drop (9 * i) l)) <$> seq 0 n) = take (9 * n) l.
Proof.
  induction n as [|n IH]; [by rewrite Nat.mul_0_r, take_0 |].
  rewrite seq_S, fmap_app, concat_app, IH. simpl. rewrite app_nil_r.
  rewrite take_take_drop. f_equal. lia.
Qed.

Lemma totalPages_bounds (l : list Item) :
  (0 ≤ ItemList.totalPages l)%Z
  ∧ (Z.of_nat (length l) ≤ 9 * ItemList.totalPages l)%Z
  ∧ (9 * ItemList.totalPages l < Z.of_nat (length l) + 9)%Z.
Proof.
  unfold ItemList.totalPages, ItemList.itemsPerPage.
  pose proof (Z.div_mod (Z.of_nat (length l) + 9 - 1) 9 ltac:(lia)).
  pose proof (Z.mod_pos_bound (Z.of_nat (length l) + 9 - 1) 9 ltac:(lia)).
  lia.
Qed.

(** The pagination links are a run of consecutive page numbers. *)
Lemma pageNumbers_window (currentPage totalPages : Z) :
  (1 ≤ currentPage ≤ totalPages)%Z →
  ∃ first,
    ItemList.pageNumbers currentPage totalPages = seqZ first (Z.min 5 totalPages)
    ∧ (1 ≤ first)%Z
    ∧ (first ≤ currentPage < first + Z.min 5 totalPages)%Z
    ∧ (first + Z.min 5 totalPages - 1 ≤ totalPages)%Z.
Proof.
  intros Hp. unfold ItemList.pageNumbers.
  assert (∀ (f : Z → Z) first,
            (∀ i, f i = (first + i)%Z) →
            f <$> seqZ 0 (Z.min 5 totalPages) = seqZ first (Z.min 5 totalPages))
    as Hshift.
  { intros f first Hfirst.
    replace (seqZ first (Z.min 5 totalPages))
      with (Z.add first <$> seqZ 0 (Z.min 5 totalPages))
      by (rewrite fmap_add_seqZ; f_equal; lia).
    apply list_fmap_ext. intros ? i _. apply Hfirst. }
  unfold ItemList.pageNum.
  destruct (Z.leb_spec totalPages 5); [| destruct (Z.leb_spec currentPage 3);
    [| destruct (Z.geb_spec currentPage (totalPages - 2))]].
  - exists 1%Z. split; [apply Hshift; intros; lia | lia].
  - exists 1%Z. split; [apply Hshift; intros; lia | lia].
  - exists (totalPages - 4)%Z. split; [apply Hshift; intros; lia | lia].
  - exists (currentPage - 2)%Z. split; [apply Hshift; intros; lia | lia].
Qed.

End PageFacts.

(** X9.  The pages [1] to [totalPages] hold at most nine items each and, one
    after the other, make up the sorted list. *)
Theorem pages_partition_the_list (sortedItems : list Item) :
  concat ((λ p, ItemList.currentItems sortedItems p)
            <$> seqZ 1 (ItemList.totalPages sortedItems))
  = sortedItems
  ∧ ∀ p, length (ItemList.currentItems sortedItems p) ≤ 9.
Proof.
  split.
  - unfold seqZ. rewrite <- list_fmap_compose.
    rewrite (list_fmap_ext _ (λ i, take 9 (drop (9 * i) sortedItems))).
    + rewrite concat_pages. apply take_ge.
      pose proof (totalPages_bounds sortedItems). lia.
    + intros _ i _. simpl. rewrite currentItems_page by lia. do 3 f_equal. lia.
  - intros p. unfold ItemList.currentItems, JsArray.slice.
    rewrite length_take.
    unfold JsArray.relativeIndex, ItemList.endIndex, ItemList.startIndex,
      ItemList.itemsPerPage.
    repeat case_match; lia.
Qed.

(** X10.  For a page number from [1] on, the page is empty exactly when the
    number is beyond [totalPages]; a page number kept from a longer result
    list so shows nothing. *)
Theorem page_empty_iff_beyond_last (sortedItems : list Item) (currentPage : Z) :
  (1 ≤ currentPage)%Z →
  ItemList.currentItems sortedItems currentPage = []
  ↔ (ItemList.totalPages sortedItems < currentPage)%Z.
Proof.
  intros Hp. rewrite currentItems_page by done.
  pose proof (totalPages_bounds sortedItems) as Hbounds.
  split.
  - intros Hnil. apply (f_equal length) in Hnil.
    rewrite length_take, length_drop in Hnil. change (length []) with 0 in Hnil. lia.
  - intros Hlt. rewrite drop_ge by lia. done.
Qed.

Lemma page_empty_iff_beyond_last_witness :
  ItemList.totalPages Sample.items = 1%Z
  ∧ ItemList.currentItems Sample.items 1 = Sample.items
  ∧ ItemList.currentItems Sample.items 2 = [].
Proof.
  split; [reflexivity |]. split; [reflexivity |].
  apply (page_empty_iff_beyond_last Sample.items 2); [lia | by vm_compute].
Defined.

(** X11.  When the current page is one of the pages, the pagination bar
    links [min(5, totalPages)] consecutive page numbers that all exist and
    that include the current page. *)
Theorem pagination_links_contain_current_page (currentPage totalPages : Z) :
  (1 ≤ currentPage ≤ totalPages)%Z →
  ∃ first,
    ItemList.pageNumbers currentPage totalPages = seqZ first (Z.min 5 totalPages)
    ∧ (1 ≤ first)%Z
    ∧ (first ≤ currentPage < first + Z.min 5 totalPages)%Z
    ∧ (first + Z.min 5 totalPages - 1 ≤ totalPages)%Z.
Proof. apply pageNumbers_window. Qed.

Lemma pagination_links_contain_current_page_witness :
  ItemList.pageNumbers 7 8 = [4; 5; 6; 7; 8]%Z
  ∧ ItemList.pageNumbers 5 8 = [3; 4; 5; 6; 7]%Z
  ∧ ∃ first,
      ItemList.pageNumbers 2 3 = seqZ first (Z.min 5 3)
      ∧ (1 ≤ first)%Z ∧ (first ≤ 2 < first + Z.min 5 3)%Z
      ∧ (first + Z.min 5 3 - 1 ≤ 3)%Z.
Proof.
  split; [reflexivity |]. split; [reflexivity |].
  apply (pagination_links_contain_current_page 2 3). lia.
Defined.

(** X12.  Starting on one of the pages, any sequence of clicks on Previous,
    Next and the page links leaves the current page one of the pages. *)
Theorem clicks_keep_page_in_range (totalPages currentPage : Z)
    (clicks : list ItemList.click) :
  (1 ≤ currentPage ≤ totalPages)%Z →
  (1 ≤ fold_left (ItemList.clicked totalPages) clicks currentPage ≤ totalPages)%Z.
Proof.
  revert currentPage. induction clicks as [|c clicks IH]; intros p Hp; [done |].
  simpl. apply IH. destruct c as [| |i]; simpl.
  - unfold ItemList.previousPage. lia.
  - unfold ItemList.nextPage. lia.
  - destruct (pageNumbers_window p totalPages Hp) as (first & -> & ? & ? & ?).
    destruct (seqZ first (Z.min 5 totalPages) !! i) as [q|] eqn:Hq; simpl; [| done].
    apply lookup_seqZ in Hq. lia.
Qed.

Lemma clicks_keep_page_in_range_witness :
  fold_left (ItemList.clicked 8)
    [ItemList.Next; ItemList.Link 4; ItemList.Next; ItemList.Next; ItemList.Previous] 1%Z
  = 6%Z
  ∧ (1 ≤ fold_left (ItemList.clicked 8)
           [ItemList.Next; ItemList.Link 4; ItemList.Next; ItemList.Next;
            ItemList.Previous] 1 ≤ 8)%Z.
Proof.
  split; [reflexivity |].
  apply (clicks_keep_page_in_range 8 1). lia.
Defined.

(** ** Search: the heading, repeated searches and the header search *)

Section SearchMoreFacts.
Variable Date_getTime : string → option Z.

Lemma filter_all {A} (P : A → Prop) `{∀ x, Decision (P x)} (l : list A) :
  Forall P l → filter P l = l.
Proof.
  induction 1 as [|x l Hx Hl IH]; [done |].
  by rewrite filter_cons_True, IH.
Qed.

Lemma filter_sublist_mono {A} (P Q : A → Prop)
    `{∀ x, Decision (P x)} `{∀ x, Decision (Q x)} (l : list A) :
  (∀ x, P x → Q x) → filter P l `sublist_of` filter Q l.
Proof.
  intros HPQ. induction l as [|x l IH]; [done |].
  rewrite !filter_cons. destruct (decide (P x)) as [HP|HP].
  - rewrite decide_True by auto. by apply sublist_skip.
  - destruct (decide (Q x)); [by apply sublist_cons | done].
Qed.

Lemma includes_empty (s : string) : JsString.includes s "" = true.
Proof. by destruct s. Qed.

Lemma occursIgnoringCase_empty (s : string) : Spec.occursIgnoringCase "" s.
Proof. by exists "", "", s. Qed.

Lemma filteredItems_mono (filters filters' : FilterOptions) (items : list Item) :
  (∀ item, Spec.satisfies Date_getTime filters item →
           Spec.satisfies Date_getTime filters' item) →
  ItemList.filteredItems Date_getTime filters items
  `sublist_of` ItemList.filteredItems Date_getTime filters' items.
Proof.
  intros Hmono. unfold ItemList.filteredItems. apply filter_sublist_mono.
  intros item. rewrite !Is_true_true, !keep_satisfies. apply Hmono.
Qed.

(** The comparator of [sortedItems] never asks for both orders. *)
Lemma newestFirst_total (a b : Item) :
  JsArray.keeps (ItemList.newestFirst Date_getTime) a b = false →
  JsArray.keeps (ItemList.newestFirst Date_getTime) b a = true.
Proof.
  unfold JsArray.keeps, ItemList.newestFirst.
  destruct (Date_getTime (createdAt a)), (Date_getTime (createdAt b)); try done.
  rewrite bool_decide_eq_false, bool_decide_eq_true. lia.
Qed.

Lemma sort_sorted_id {A} (compareFn : A → A → option Z) (l : list A) :
  Sorted (λ a b, JsArray.keeps compareFn a b = true) l →
  JsArray.sort compareFn l = l.
Proof.
  induction 1 as [|x l Hl IH Hhd]; [done |].
  simpl. rewrite IH. destruct Hhd as [|y l' Hxy]; [done |].
  simpl. by rewrite Hxy.
Qed.

Lemma sort_newestFirst_idempotent (l : list Item) :
  JsArray.sort (ItemList.newestFirst Date_getTime)
    (JsArray.sort (ItemList.newestFirst Date_getTime) l)
  = JsArray.sort (ItemList.newestFirst Date_getTime) l.
Proof.
  apply sort_sorted_id.
  apply (sort_Sorted _ _ (λ _, True)); [done | | by apply Forall_true].
  intros a b _ _. apply newestFirst_total.
Qed.

End SearchMoreFacts.

(** X13.  When the heading reads ["All Items"], nothing is filtered out: the
    filtered list is the whole item list.  This holds in particular for the
    filters [handleReset] installs, which are not active. *)
Theorem all_items_heading_means_unfiltered (Date_getTime : string → option Z)
    (filters : FilterOptions) (items : list Item) :
  (ItemList.heading filters = "All Items" →
   ItemList.filteredItems Date_getTime filters items = items)
  ∧ ItemList.heading SearchFilters.handleReset = "All Items"
  ∧ SearchFilters.hasActiveFilters SearchFilters.handleReset = false
  ∧ ItemList.filteredItems Date_getTime SearchFilters.handleReset items = items.
Proof.
  assert (∀ f, ItemList.heading f = "All Items" →
               ItemList.filteredItems Date_getTime f items = items) as Hall.
  { intros f. unfold ItemList.heading.
    destruct (_ || _) eqn:Hactive; [done |]. intros _.
    repeat (apply orb_false_elim in Hactive as [Hactive ?]).
    repeat match goal with
           | H : bool_decide _ = false |- _ =>
               apply bool_decide_eq_false in H; apply dec_stable in H
           end.
    unfold ItemList.filteredItems. apply filter_all, Forall_forall.
    intros item _. apply Is_true_true, keep_satisfies.
    unfold Spec.satisfies, Spec.textMatches.
    destruct (f_search f); [| done]. destruct (f_dateFrom f); [| done].
    destruct (f_dateTo f); [| done].
    split; [left; apply occursIgnoringCase_empty | by auto 10]. }
  split; [apply Hall |]. split; [done |]. split; [done |]. by apply Hall.
Qed.

Lemma all_items_heading_means_unfiltered_witness :
  ItemList.heading Sample.noFilters = "All Items"
  ∧ ItemList.filteredItems IsoDate.getTime Sample.noFilters Sample.items = Sample.items
  ∧ ItemList.heading Sample.backpackInLibrary = "Search Results".
Proof.
  split; [reflexivity |]. split; [| reflexivity].
  exact (proj1 (all_items_heading_means_unfiltered IsoDate.getTime Sample.noFilters
                  Sample.items) eq_refl).
Defined.

(** X14.  When the creation times of the items are valid dates, searching
    the result of a search again with the same filters changes nothing. *)
Theorem search_is_idempotent (Date_getTime : string → option Z)
    (filters : FilterOptions) (items : list Item) :
  Forall (λ item, is_Some (Date_getTime (createdAt item))) items →
  ItemList.sortedItems Date_getTime filters
    (ItemList.sortedItems Date_getTime filters items)
  = ItemList.sortedItems Date_getTime filters items.
Proof.
  intros _. unfold ItemList.sortedItems at 1.
  assert (ItemList.filteredItems Date_getTime filters
            (ItemList.sortedItems Date_getTime filters items)
          = ItemList.sortedItems Date_getTime filters items) as ->.
  { unfold ItemList.filteredItems at 1. apply filter_all, Forall_forall.
    intros item Hin. unfold ItemList.sortedItems in Hin.
    apply elem_of_sort in Hin. unfold ItemList.filteredItems in Hin.
    by apply list_elem_of_filter in Hin as [? _]. }
  apply sort_newestFirst_idempotent.
Qed.

Lemma search_is_idempotent_witness :
  Forall (λ item, is_Some (IsoDate.getTime (createdAt item))) Sample.items
  ∧ ItemList.sortedItems IsoDate.getTime Sample.noFilters Sample.items
    = [Sample.keys; Sample.calculator; Sample.backpack]
  ∧ ItemList.sortedItems IsoDate.getTime Sample.noFilters
      (ItemList.sortedItems IsoDate.getTime Sample.noFilters Sample.items)
    = ItemList.sortedItems IsoDate.getTime Sample.noFilters Sample.items.
Proof.
  assert (Forall (λ item, is_Some (IsoDate.getTime (createdAt item))) Sample.items)
    as Hvalid by (repeat constructor; vm_compute; eauto).
  split; [exact Hvalid |]. split; [by vm_compute |].
  exact (search_is_idempotent IsoDate.getTime Sample.noFilters Sample.items Hvalid).
Defined.

(** X15.  With the header search set, the list shows exactly the items that
    match the header query in one of the four text fields and satisfy the
    filters of the list. *)
Theorem header_search_and_filters_combine (Date_getTime : string → option Z)
    (searchQuery : string) (filters : FilterOptions) (l : list Item) (x : Item) :
  x ∈ ItemList.sortedItems Date_getTime filters (App.browseItems searchQuery l)
  ↔ x ∈ l
    ∧ Spec.textMatches searchQuery x
    ∧ Spec.satisfies Date_getTime filters x.
Proof.
  unfold ItemList.sortedItems. rewrite elem_of_sort, elem_of_filteredItems.
  unfold App.browseItems, App.searchFilteredItems.
  destruct (JsString.truthy searchQuery) eqn:Htruthy.
  - rewrite list_elem_of_filter, Is_true_true.
    cbv zeta. rewrite !orb_true_iff, !includes_lower_occurs.
    unfold Spec.textMatches. tauto.
  - destruct searchQuery; [| done].
    unfold Spec.textMatches. pose proof (occursIgnoringCase_empty (title x)). tauto.
Qed.

(** X16.  Setting one filter back to its no-constraint value never removes
    an item from the filtered list. *)
Theorem clearing_a_filter_never_shrinks (Date_getTime : string → option Z)
    (filters : FilterOptions) (items : list Item) :
  let result := ItemList.filteredItems Date_getTime filters items in
  result `sublist_of`
    ItemList.filteredItems Date_getTime (SearchFilters.withCategory filters "All") items
  ∧ result `sublist_of`
      ItemList.filteredItems Date_getTime (SearchFilters.withLocation filters "All") items
  ∧ result `sublist_of`
      ItemList.filteredItems Date_getTime (SearchFilters.withType filters "all") items
  ∧ result `sublist_of`
      ItemList.filteredItems Date_getTime (SearchFilters.withStatus filters "all") items
  ∧ result `sublist_of`
      ItemList.filteredItems Date_getTime (SearchFilters.withDateFrom filters "") items
  ∧ result `sublist_of`
      ItemList.filteredItems Date_getTime (SearchFilters.withDateTo filters "") items.
Proof.
  intros result. subst result.
  split_and!; apply filteredItems_mono; intros item;
    unfold Spec.satisfies; simpl; tauto.
Qed.

(** ** The dashboard: tables, sums, bounds and chart labels *)

Section TableFacts.

Lemma own_None_keys (o : JsObject.table) (k : string) :
  JsObject.own o k = None ↔ k ∉ (fst <$> o).
Proof.
  induction o as [|[k' v] o IH]; csimpl.
  - split; [intros _; apply not_elem_of_nil | done].
  - case_bool_decide as Hk; rewrite not_elem_of_cons.
    + split; [done | intros [Hne _]; by destruct Hne].
    + rewrite IH. split; [by intros ? | by intros [_ ?]].
Qed.

Lemma assign_keys (o : JsObject.table) (k : string) (v : JsObject.value) :
  fst <$> JsObject.assign o k v
  = if decide (k ∈ fst <$> o) then fst <$> o else (fst <$> o) ++ [k].
Proof.
  induction o as [|[k' v'] o IH]; csimpl; [done |].
  case_bool_decide as Hk; csimpl.
  - subst k'. by rewrite decide_True by (by left).
  - rewrite IH. destruct (decide (k ∈ fst <$> o)) as [Hin|Hout].
    + by rewrite decide_True by (by right).
    + rewrite decide_False; [done |].
      rewrite elem_of_cons. intros [-> | ]; done.
Qed.

Lemma tally_keys (f : Item → string) (items : list Item) :
  NoDup (fst <$> Dashboard.tally f items)
  ∧ ∀ k, k ∈ fst <$> Dashboard.tally f items ↔ k ∈ f <$> items ∧ k ≠ "__proto__".
Proof.
  induction items as [|x items [IHnodup IHkeys]] using rev_ind.
  - split; [constructor |]. intros k. csimpl. rewrite elem_of_nil. tauto.
  - rewrite tally_snoc, fmap_app. csimpl. unfold JsObject.set.
    case_bool_decide as Hproto.
    + split; [done |]. intros k. rewrite IHkeys, elem_of_app, list_elem_of_singleton.
      split; [tauto |]. intros [[? | ->] ?]; [tauto | done].
    + rewrite assign_keys.
      destruct (decide (f x ∈ fst <$> Dashboard.tally f items)) as [Hin|Hout].
      * split; [done |]. intros k.
        rewrite IHkeys, elem_of_app, list_elem_of_singleton.
        split; [tauto |]. intros [[? | ->] ?]; [tauto |]. by apply IHkeys.
      * split.
        -- apply NoDup_app. split_and!; [done | | apply NoDup_singleton].
           intros k Hk ->%list_elem_of_singleton. done.
        -- intros k. rewrite !elem_of_app, !list_elem_of_singleton, IHkeys.
           split; [intros [[? ?] | ->]; tauto | tauto].
Qed.

Lemma sum_assign (o : JsObject.table) (k : string) (v : JsObject.value) :
  sum_list_with (λ e, Dashboard.countOf (snd e)) (JsObject.assign o k v)
  + match JsObject.own o k with Some old => Dashboard.countOf old | None => 0 end
  = sum_list_with (λ e, Dashboard.countOf (snd e)) o + Dashboard.countOf v.
Proof.
  induction o as [|[k' v'] o IH]; csimpl; [lia |].
  case_bool_decide; csimpl; lia.
Qed.

Lemma assign_numbers (o : JsObject.table) (k : string) (n : nat) :
  Forall (λ e, ∃ m, snd e = JsObject.VNumber m) o →
  Forall (λ e, ∃ m, snd e = JsObject.VNumber m) (JsObject.assign o k (JsObject.VNumber n)).
Proof.
  induction 1 as [|[k' v'] o He Ho IH]; csimpl.
  - repeat constructor. eauto.
  - case_bool_decide; constructor; simpl; eauto.
Qed.

Lemma own_number (o : JsObject.table) (k : string) (v : JsObject.value) :
  Forall (λ e, ∃ m, snd e = JsObject.VNumber m) o →
  JsObject.own o k = Some v → ∃ m, v = JsObject.VNumber m.
Proof.
  induction 1 as [|[k' v'] o He Ho IH]; csimpl; [done |].
  case_bool_decide; [| done]. intros ?. simplify_eq. done.
Qed.

(** Without inherited names among the field values, every slot of the table
    is a number and the numbers add up to the number of items. *)
Lemma tally_sum (f : Item → string) (items : list Item) :
  Forall (λ k, k ∉ JsObject.prototypeKeys) (f <$> items) →
  Forall (λ e, ∃ m, snd e = JsObject.VNumber m) (Dashboard.tally f items)
  ∧ sum_list_with (λ e, Dashboard.countOf (snd e)) (Dashboard.tally f items)
    = length items.
Proof.
  induction items as [|x items IH] using rev_ind; [by split |].
  rewrite fmap_app, Forall_app. csimpl. rewrite Forall_singleton.
  intros [Hitems Hx]. destruct (IH Hitems) as [IHnum IHsum].
  rewrite tally_snoc, length_app. simpl.
  assert (f x ≠ "__proto__") as Hproto.
  { intros Heq. apply Hx. rewrite Heq. apply (bool_decide_unpack _). by vm_compute. }
  unfold JsObject.set. rewrite bool_decide_eq_false_2 by done.
  unfold JsObject.get.
  pose proof (sum_assign (Dashboard.tally f items) (f x)) as Hsum.
  destruct (JsObject.own (Dashboard.tally f items) (f x)) as [old|] eqn:Hown.
  - destruct (own_number _ _ _ IHnum Hown) as [m ->]. simpl.
    split; [by apply assign_numbers |].
    specialize (Hsum (JsObject.VNumber (m + 1))). simpl in Hsum. lia.
  - rewrite bool_decide_eq_false_2 by done. simpl.
    split; [by apply assign_numbers |].
    specialize (Hsum (JsObject.VNumber 1)). simpl in Hsum. lia.
Qed.

Lemma entries_Permutation (o : JsObject.table) : JsObject.entries o ≡ₚ o.
Proof.
  unfold JsObject.entries. rewrite sort_Permutation.
  apply (filter_app_complement (λ e, JsObject.isIndexKey e)).
Qed.

Lemma sum_take_le {A} (g : A → nat) (n : nat) (l : list A) :
  sum_list_with g (take n l) ≤ sum_list_with g l.
Proof.
  revert n. induction l as [|x l IH]; intros [|n]; simpl; try lia.
  specialize (IH n). lia.
Qed.

Lemma top_sum (o : JsObject.table) :
  sum_list_with (λ e, Dashboard.countOf (snd e)) (Dashboard.top o)
  ≤ sum_list_with (λ e, Dashboard.countOf (snd e)) o
  ∧ (length o ≤ 10 →
     sum_list_with (λ e, Dashboard.countOf (snd e)) (Dashboard.top o)
     = sum_list_with (λ e, Dashboard.countOf (snd e)) o).
Proof.
  unfold Dashboard.top, JsArray.slice0.
  assert (JsArray.sort (λ a b, JsObject.minus (snd b) (snd a)) (JsObject.entries o) ≡ₚ o)
    as Hperm by (by rewrite sort_Permutation, entries_Permutation).
  split.
  - rewrite <- Hperm at 2. apply sum_take_le.
  - intros Hlen. rewrite take_ge; [by rewrite Hperm |].
    by rewrite Hperm.
Qed.

End TableFacts.

(** X17.  For every item list, the own keys of the table that the count
    builds are pairwise distinct, and they are exactly the field values that
    occur, except ["__proto__"], which never becomes a key. *)
Theorem tally_keys_are_the_field_values (f : Item → string) (items : list Item) :
  NoDup (fst <$> Dashboard.tally f items)
  ∧ ∀ k, k ∈ fst <$> Dashboard.tally f items ↔ k ∈ f <$> items ∧ k ≠ "__proto__".
Proof. apply tally_keys. Qed.

(** X18.  When no category is a name inherited from [Object.prototype], the
    counts in [topCategories] add up to at most [totalItems], and to exactly
    [totalItems] when there are at most ten different categories. *)
Theorem topCategories_counts_add_up (items : list Item) :
  Forall (λ k, k ∉ JsObject.prototypeKeys) (category <$> items) →
  let data := Dashboard.calculateLocalData items in
  sum_list_with (λ e, Dashboard.countOf (snd e)) (Dashboard.topCategories data)
  ≤ Dashboard.totalItems (Dashboard.stats data)
  ∧ (length (Spec.firstSeen (category <$> items)) ≤ 10 →
     sum_list_with (λ e, Dashboard.countOf (snd e)) (Dashboard.topCategories data)
     = Dashboard.totalItems (Dashboard.stats data)).
Proof.
  intros Hplain data. subst data. simpl.
  destruct (tally_sum category items Hplain) as [_ Hsum].
  destruct (top_sum (Dashboard.tally category items)) as [Hle Heq].
  split; [lia |]. intros Hdistinct. rewrite Heq; [done |].
  destruct (tally_keys category items) as [Hnodup Hkeys].
  rewrite <- (length_fmap fst).
  etransitivity; [| exact Hdistinct].
  apply submseteq_length, NoDup_submseteq; [done |].
  intros k Hk. apply elem_of_firstSeen. by apply Hkeys in Hk as [? _].
Qed.

Lemma topCategories_counts_add_up_witness :
  sum_list_with (λ e, Dashboard.countOf (snd e))
    (Dashboard.topCategories
       (Dashboard.calculateLocalData (Sample.items ++ [Sample.scarf; Sample.notebook])))
  = 5.
Proof.
  apply (proj2 (topCategories_counts_add_up (Sample.items ++ [Sample.scarf; Sample.notebook])
                  ltac:(apply (bool_decide_unpack _); by vm_compute))).
  vm_compute. lia.
Defined.

Section RateAndLabelFacts.

Lemma length_append (s1 s2 : string) :
  String.length (s1 +:+ s2) = String.length s1 + String.length s2.
Proof. induction s1; unfold_append; simpl; [done | by f_equal]. Qed.

Lemma substring_head (n : nat) (s : string) :
  n ≤ String.length s →
  ∃ rest, s = substring 0 n s +:+ rest ∧ String.length (substring 0 n s) = n.
Proof.
  revert s. induction n as [|n IH]; intros s Hlen.
  - exists s. by destruct s.
  - destruct s as [|c s]; simpl in Hlen; [lia |].
    destruct (IH s) as (rest & Hs & Hn); [lia |].
    exists rest. simpl. unfold_append. split; [by f_equal | by f_equal].
Qed.

End RateAndLabelFacts.

(** X19.  For every item list the claim rate is a number from [0] to
    [100]. *)
Theorem claimRate_between_0_and_100 (items : list Item) :
  ∃ q, Dashboard.claimRate (Dashboard.stats (Dashboard.calculateLocalData items))
       = Dashboard.Finite q
       ∧ (0 <= q)%Q ∧ (q <= 100)%Q.
Proof.
  destruct (claimRate_range items) as (q & Hrate & Hlo & Hhi).
  exists q. by rewrite Hrate.
Qed.

(** X20.  The location chart has at most five bars; label and bar [i] belong
    to the [i]-th top location.  A name of up to 15 code units is its own
    label; a longer one is cut to its first 15 code units followed by three
    dots, so no label is longer than 18. *)
Theorem location_chart_labels (topLocations : list (string * JsObject.value)) :
  let labels := fst (Dashboard.locationsChartData topLocations) in
  let data := snd (Dashboard.locationsChartData topLocations) in
  length labels = length data
  ∧ length labels ≤ 5
  ∧ (∀ i name count, i < 5 → topLocations !! i = Some (name, count) →
       labels !! i = Some (Dashboard.shortLabel name) ∧ data !! i = Some count)
  ∧ (∀ name, String.length (Dashboard.shortLabel name) ≤ 18
             ∧ (String.length name ≤ 15 → Dashboard.shortLabel name = name)
             ∧ (15 < String.length name →
                ∃ head rest, name = head +:+ rest ∧ String.length head = 15
                             ∧ Dashboard.shortLabel name = head +:+ "...")).
Proof.
  intros labels data. subst labels data.
  unfold Dashboard.locationsChartData, JsArray.slice0. simpl. split_and!.
  - by rewrite !length_fmap.
  - rewrite length_fmap, length_take. lia.
  - intros i name count Hi Hlookup.
    rewrite !list_lookup_fmap, !lookup_take_lt by done. by rewrite Hlookup.
  - intros name. unfold Dashboard.shortLabel.
    destruct (15 <? String.length name) eqn:Hlong.
    + apply Nat.ltb_lt in Hlong.
      destruct (substring_head 15 name) as (rest & Hname & Hhead); [lia |].
      split_and!.
      * rewrite length_append, Hhead. simpl. lia.
      * lia.
      * intros _. by exists (substring 0 15 name), rest.
    + apply Nat.ltb_ge in Hlong. split_and!; [lia | done | lia].
Qed.

Lemma location_chart_labels_witness :
  Dashboard.shortLabel "Library - 2nd Floor" = "Library - 2nd F..."
  ∧ ∃ head rest, "Library - 2nd Floor" = head +:+ rest ∧ String.length head = 15
                 ∧ Dashboard.shortLabel "Library - 2nd Floor" = head +:+ "...".
Proof.
  split; [reflexivity |].
  apply (proj2 (proj2 (proj2 (proj2 (proj2 (location_chart_labels [])))
                         "Library - 2nd Floor"))).
  simpl. lia.
Defined.

(** ** Submitting the report form *)

Section SubmitFacts.

Lemma newErrors_nil_iff (formData : ReportItemForm.FormData) :
  ReportItemForm.newErrors formData = []
  ↔ JsString.trim (ReportItemForm.fd_title formData) ≠ ""
    ∧ JsString.trim (ReportItemForm.fd_description formData) ≠ ""
    ∧ JsString.trim (ReportItemForm.fd_contactName formData) ≠ ""
    ∧ (Spec.containsAt (ReportItemForm.fd_contactInfo formData)
       ∨ Spec.tenDigits (ReportItemForm.fd_contactInfo formData)).
Proof.
  unfold ReportItemForm.newErrors.
  rewrite checkContactInfo_nil, !require_nil, !trim_empty. tauto.
Qed.

Lemma validateForm_flag (formData : ReportItemForm.FormData) :
  ReportItemForm.validateForm formData
  = (ReportItemForm.newErrors formData,
     bool_decide (ReportItemForm.newErrors formData = [])).
Proof.
  unfold ReportItemForm.validateForm. f_equal.
  destruct (ReportItemForm.newErrors formData); by simpl.
Qed.

Lemma emptyForm_rejected (toISOString : Z → string) (now : Z) :
  ReportItemForm.newErrors (ReportItemForm.emptyForm toISOString now) ≠ [].
Proof. rewrite newErrors_nil_iff. simpl. by intros [? _]. Qed.

Lemma handleSubmit_cases (toISOString : Z → string) (now : Z)
    (formData : ReportItemForm.FormData) (imagePreview : string) :
  ReportItemForm.handleSubmit toISOString now formData imagePreview
  = if bool_decide (ReportItemForm.newErrors formData = []) then
      {| ReportItemForm.onSubmit := Some formData;
         ReportItemForm.formData' := ReportItemForm.emptyForm toISOString now;
         ReportItemForm.imagePreview' := "";
         ReportItemForm.errors' := [];
         ReportItemForm.toastError := None |}
    else
      {| ReportItemForm.onSubmit := None;
         ReportItemForm.formData' := formData;
         ReportItemForm.imagePreview' := imagePreview;
         ReportItemForm.errors' := ReportItemForm.newErrors formData;
         ReportItemForm.toastError := Some "Please fix the errors in the form" |}.
Proof.
  unfold ReportItemForm.handleSubmit. rewrite validateForm_flag.
  by case_bool_decide.
Qed.

End SubmitFacts.

(** X21.  [handleSubmit] hands the form data to [onSubmit] exactly when
    title, description and contact name are non-empty after trimming and the
    contact info has an at sign or is exactly ten digits.  Otherwise it keeps
    the form, records errors and shows the error toast.  After a submission
    the form is reset, and submitting the reset form submits nothing. *)
Theorem handleSubmit_submits_valid_data_once (toISOString : Z → string) (now now' : Z)
    (formData : ReportItemForm.FormData) (imagePreview : string) :
  let out := ReportItemForm.handleSubmit toISOString now formData imagePreview in
  (ReportItemForm.onSubmit out = Some formData
   ↔ JsString.trim (ReportItemForm.fd_title formData) ≠ ""
     ∧ JsString.trim (ReportItemForm.fd_description formData) ≠ ""
     ∧ JsString.trim (ReportItemForm.fd_contactName formData) ≠ ""
     ∧ (Spec.containsAt (ReportItemForm.fd_contactInfo formData)
        ∨ Spec.tenDigits (ReportItemForm.fd_contactInfo formData)))
  ∧ (ReportItemForm.onSubmit out ≠ Some formData →
     ReportItemForm.onSubmit out = None
     ∧ ReportItemForm.formData' out = formData
     ∧ ReportItemForm.imagePreview' out = imagePreview
     ∧ ReportItemForm.errors' out ≠ []
     ∧ ReportItemForm.toastError out = Some "Please fix the errors in the form")
  ∧ (ReportItemForm.onSubmit out = Some formData →
     ReportItemForm.formData' out = ReportItemForm.emptyForm toISOString now
     ∧ ReportItemForm.errors' out = []
     ∧ ReportItemForm.toastError out = None
     ∧ ReportItemForm.onSubmit
         (ReportItemForm.handleSubmit toISOString now'
            (ReportItemForm.formData' out) (ReportItemForm.imagePreview' out))
       = None).
Proof.
  intros out. subst out. rewrite <- newErrors_nil_iff.
  rewrite (handleSubmit_cases toISOString now formData imagePreview).
  case_bool_decide as Hvalid; cbn [ReportItemForm.onSubmit ReportItemForm.formData'
    ReportItemForm.imagePreview' ReportItemForm.errors' ReportItemForm.toastError].
  - split; [done |]. split; [by intros Hne; destruct Hne |].
    intros _. split_and!; [done | done | done |].
    rewrite handleSubmit_cases.
    by rewrite bool_decide_eq_false_2 by apply emptyForm_rejected.
  - split; [by split |]. split; [by intros _ | done].
Qed.

Lemma handleSubmit_submits_valid_data_once_witness :
  let formData :=
    ReportItemForm.mkFormData "Blue Backpack" "Navy, laptop sleeve" "Bags"
      "Library - 2nd Floor" "2024-03-04" "lost" "active" "Alice Martin"
      "alice@campus.edu" "" in
  let out := ReportItemForm.handleSubmit IsoDate.toISOString 1709800000000 formData "" in
  ReportItemForm.onSubmit out = Some formData
  ∧ ReportItemForm.fd_date (ReportItemForm.formData' out) = "2024-03-07"
  ∧ ReportItemForm.onSubmit
      (ReportItemForm.handleSubmit IsoDate.toISOString 1709800000001
         (ReportItemForm.formData' out) (ReportItemForm.imagePreview' out))
    = None.
Proof.
  intros formData out.
  assert (ReportItemForm.onSubmit out = Some formData) as Hsubmitted by reflexivity.
  split; [exact Hsubmitted |]. split; [reflexivity |].
  exact (proj2 (proj2 (proj2 (proj2 (proj2
           (handleSubmit_submits_valid_data_once IsoDate.toISOString
              1709800000000 1709800000001 formData "")) Hsubmitted)))).
Defined.

(** ** The quick-search box *)

(** X22.  After the effect of the quick-search box has run, the dropdown is
    shown exactly when there are suggestions.  A value shorter than two code
    units gives none, whatever the backend would answer; for a longer value
    the suggestions are the backend's answer, or none when the request
    fails. *)
Theorem quick_search_suggestions (backend : string → completion (list string))
    (value : string) :
  let suggestions := fst (SearchWithSuggestions.fetchSuggestions backend value) in
  let showSuggestions := snd (SearchWithSuggestions.fetchSuggestions backend value) in
  (showSuggestions = true ↔ suggestions ≠ [])
  ∧ (String.length value < 2 →
     ∀ backend', SearchWithSuggestions.fetchSuggestions backend' value = ([], false))
  ∧ (2 ≤ String.length value →
     suggestions = match backend value with Normal results => results | Throw _ => [] end).
Proof.
  intros suggestions showSuggestions. subst suggestions showSuggestions.
  unfold SearchWithSuggestions.fetchSuggestions, ApiService.getSearchSuggestions.
  destruct (2 <=? String.length value) eqn:Hlen.
  - apply Nat.leb_le in Hlen.
    assert ((String.length value <? 2) = false) as -> by (apply Nat.ltb_ge; lia).
    destruct (backend value) as [results|message]; simpl.
    + split_and!; [| lia | done].
      destruct results; simpl; split; done.
    + split_and!; [by split | lia | done].
  - pose proof (proj1 (Nat.leb_gt _ _) Hlen) as Hshort. simpl.
    split_and!; [by split | | lia].
    by intros _ backend'.
Qed.

Lemma quick_search_suggestions_witness :
  SearchWithSuggestions.fetchSuggestions (λ _, Normal ["Blue Backpack"; "Bags"]) "b"
  = ([], false)
  ∧ fst (SearchWithSuggestions.fetchSuggestions (λ _, Normal ["Blue Backpack"; "Bags"]) "ba")
    = ["Blue Backpack"; "Bags"].
Proof.
  split.
  - apply (proj1 (proj2 (quick_search_suggestions (λ _, Normal []) "b"))). simpl. lia.
  - apply (proj2 (proj2 (quick_search_suggestions
                           (λ _, Normal ["Blue Backpack"; "Bags"]) "ba"))).
    simpl. lia.
Defined.

(** ** Requests and the handlers of the application *)

(** X23.  [fetchJson] returns a value only for a response that is ok and
    whose body parses.  For a response that is not ok it always throws, with
    a message that is never empty: the error text of the body when it has a
    non-empty one, ["Unknown error"] when the body does not parse, and the
    status line otherwise.  A request that did not complete throws its own
    error. *)
Theorem fetchJson_outcomes {J T : Type} (errorOf : J → option string)
    (asResult : J → T) (fetched : completion (@ApiService.Response J)) :
  (∀ response, fetched = Normal response → ApiService.ok response = false →
     ∃ message,
       ApiService.fetchJson errorOf asResult fetched = Throw message
       ∧ message ≠ ""
       ∧ (∀ e, ApiService.json response = Throw e → message = "Unknown error")
       ∧ (∀ j text, ApiService.json response = Normal j → errorOf j = Some text →
            text ≠ "" → message = text)
       ∧ (∀ j, ApiService.json response = Normal j → errorOf j = None →
            message = "HTTP error! status: " +:+ pretty (ApiService.status response)))
  ∧ (∀ t, ApiService.fetchJson errorOf asResult fetched = Normal t →
       ∃ response j,
         fetched = Normal response ∧ ApiService.ok response = true
         ∧ ApiService.json response = Normal j ∧ t = asResult j)
  ∧ (∀ e, fetched = Throw e → ApiService.fetchJson errorOf asResult fetched = Throw e).
Proof.
  split_and!.
  - intros response -> Hok. unfold ApiService.fetchJson. rewrite Hok. simpl.
    eexists. split; [reflexivity |].
    destruct (ApiService.json response) as [j|e]; simpl.
    + destruct (errorOf j) as [[|c text]|] eqn:Herror; simpl; split_and!; try done;
        intros; simplify_eq; congruence.
    + split_and!; try done.
  - intros t. unfold ApiService.fetchJson.
    destruct fetched as [response|e]; [| done].
    destruct (ApiService.ok response) eqn:Hok; simpl; [| done].
    destruct (ApiService.json response) as [j|e] eqn:Hjson; [| done].
    intros ?. simplify_eq. by exists response, j.
  - by intros e ->.
Qed.

Lemma fetchJson_outcomes_witness :
  ApiService.fetchJson (λ j : option string, j) (λ _, 0)
    (Normal (ApiService.mkResponse false 404 (Normal (Some "Item not found"))))
  = Throw "Item not found"
  ∧ ApiService.fetchJson (λ j : option string, j) (λ _, 0)
      (Normal (ApiService.mkResponse false 500 (Normal None)))
    = Throw "HTTP error! status: 500"
  ∧ ∃ message,
      ApiService.fetchJson (λ j : option string, j) (λ _, 0)
        (Normal (ApiService.mkResponse false 502 (Throw "Unexpected token <")))
      = Throw message
      ∧ message ≠ "".
Proof.
  split; [reflexivity |]. split; [reflexivity |].
  destruct (proj1 (fetchJson_outcomes (λ j : option string, j) (λ _, 0)
                     (Normal (ApiService.mkResponse false 502 (Throw "Unexpected token <"))))
              _ eq_refl eq_refl) as (message & Hthrow & Hne & _).
  by exists message.
Defined.

Section AppFacts.

Lemma messageOr_nonempty (message fallback : string) :
  fallback ≠ "" →
  App.messageOr message fallback ≠ ""
  ∧ (message ≠ "" → App.messageOr message fallback = message).
Proof. intros Hfallback. unfold App.messageOr. by destruct message. Qed.

Lemma loadItems_items (answer : completion (list Item)) (st : App.State) :
  App.items (App.loadItems answer st)
  = match answer with Normal l => l | Throw _ => [] end
  ∧ App.loading (App.loadItems answer st) = false
  ∧ App.toasts st `prefix_of` App.toasts (App.loadItems answer st).
Proof.
  unfold App.loadItems. destruct answer; simpl; split_and!; try done.
  by apply prefix_app_r.
Qed.

Lemma handle_step (st : App.State) (e : App.event) :
  (App.items (App.handle st e) = App.items st
   ∨ App.items (App.handle st e) = []
   ∨ ∃ l, App.received e = Some l ∧ App.items (App.handle st e) = l)
  ∧ App.toasts st `prefix_of` App.toasts (App.handle st e)
  ∧ (App.loading st = false → App.loading (App.handle st e) = false).
Proof.
  destruct e as [answer|added answer|updated answer|deleted answer]; simpl.
  - destruct answer; simpl; split_and!; eauto using prefix_app_r.
  - destruct added as [result|message]; simpl.
    + unfold App.handleAddItem.
      destruct (_ && _), answer; simpl; split_and!; eauto;
        rewrite <- ?(assoc_L (++)); by apply prefix_app_r.
    + split_and!; eauto using prefix_app_r.
  - destruct updated as [item|message], answer; simpl; split_and!; eauto;
      rewrite <- ?(assoc_L (++)); by apply prefix_app_r.
  - destruct deleted as [[]|message], answer; simpl; split_and!; eauto;
      rewrite <- ?(assoc_L (++)); by apply prefix_app_r.
Qed.

End AppFacts.

(** X24.  When the request of an action fails, the application keeps the
    item list, the loading flag and the tab as they are, does not reload,
    and shows one error toast, whose text is the message of the error, or a
    fallback text when that message is empty; it is never empty. *)
Theorem failed_action_shows_error_and_keeps_list (message : string)
    (answer : completion (list Item)) (st : App.State) (e : App.event) :
  e ∈ [App.Add (Throw message) answer; App.Update (Throw message) answer;
       App.Delete (Throw message) answer] →
  App.items (App.handle st e) = App.items st
  ∧ App.loading (App.handle st e) = App.loading st
  ∧ App.activeTab (App.handle st e) = App.activeTab st
  ∧ ∃ shown, App.toasts (App.handle st e) = App.toasts st ++ [App.ToastError shown]
             ∧ shown ≠ ""
             ∧ (message ≠ "" → shown = message).
Proof.
  rewrite !elem_of_cons, elem_of_nil.
  intros [-> | [-> | [-> | []]]]; simpl; split_and!; try done;
    eexists; (split; [reflexivity |]); by apply messageOr_nonempty.
Qed.

Lemma failed_action_shows_error_and_keeps_list_witness :
  App.handle (App.mkState Sample.items false "admin" [])
    (App.Update (Throw "Item not found") (Normal []))
  = App.mkState Sample.items false "admin" [App.ToastError "Item not found"]
  ∧ App.items (App.handle (App.mkState Sample.items false "admin" [])
                 (App.Delete (Throw "") (Normal [])))
    = Sample.items.
Proof.
  split; [reflexivity |].
  apply (failed_action_shows_error_and_keeps_list "" (Normal [])
           (App.mkState Sample.items false "admin" []) (App.Delete (Throw "") (Normal []))).
  rewrite !elem_of_cons. tauto.
Defined.

(** X25.  Whatever happens, in whatever order: the item list on screen is
    the one there was, or empty, or a list the backend sent in answer to one
    of the events; toasts are only ever added; and a loading flag that is
    off is off again after every event. *)
Theorem screen_shows_only_what_the_backend_sent (events : list App.event)
    (st : App.State) :
  let st' := fold_left App.handle events st in
  (App.items st' = App.items st
   ∨ App.items st' = []
   ∨ ∃ e l, e ∈ events ∧ App.received e = Some l ∧ App.items st' = l)
  ∧ App.toasts st `prefix_of` App.toasts st'
  ∧ (App.loading st = false → App.loading st' = false).
Proof.
  induction events as [|e events IH] using rev_ind; simpl.
  - split_and!; auto.
  - rewrite fold_left_app. simpl.
    destruct IH as (Hitems & Htoasts & Hloading).
    destruct (handle_step (fold_left App.handle events st) e) as (Hstep & Hmore & Hoff).
    split_and!.
    + destruct Hstep as [Hsame | [Hnil | (l & Hl & Hshown)]].
      * rewrite Hsame. destruct Hitems as [? | [? | (e' & l & ? & ? & ?)]]; auto.
        right. right. exists e', l. rewrite elem_of_app. auto.
      * auto.
      * right. right. exists e, l. rewrite elem_of_app, list_elem_of_singleton. auto.
    + by etransitivity.
    + auto.
Qed.

(** X26.  The buttons of the admin panel show their success toast first and
    in every case, also when the request then fails; in that case the item
    list stays as it is and the error toast follows. *)
Theorem admin_success_toast_comes_regardless (updated : completion Item)
    (deleted : completion unit) (answer : completion (list Item)) (st : App.State) :
  (∃ later, App.toasts (AdminPanel.handleApprove updated answer st)
            = App.toasts st ++ App.ToastSuccess "Item approved and activated" :: later)
  ∧ (∃ later, App.toasts (AdminPanel.handleMarkClaimed updated answer st)
              = App.toasts st ++ App.ToastSuccess "Item marked as claimed" :: later)
  ∧ (∃ later, App.toasts (AdminPanel.handleDelete deleted answer st)
              = App.toasts st ++ App.ToastSuccess "Item deleted successfully" :: later)
  ∧ ∀ message,
      App.items (AdminPanel.handleApprove (Throw message) answer st) = App.items st
      ∧ App.toasts (AdminPanel.handleApprove (Throw message) answer st)
        = App.toasts st
          ++ [App.ToastSuccess "Item approved and activated";
              App.ToastError (App.messageOr message "Failed to update item")].
Proof.
  unfold AdminPanel.handleApprove, AdminPanel.handleMarkClaimed, AdminPanel.handleDelete.
  split_and!.
  - destruct updated, answer; simpl; rewrite <- ?(assoc_L (++)); simpl; eauto.
  - destruct updated, answer; simpl; rewrite <- ?(assoc_L (++)); simpl; eauto.
  - destruct deleted, answer; simpl; rewrite <- ?(assoc_L (++)); simpl; eauto.
  - intros message. simpl. by rewrite <- (assoc_L (++)).
Qed.

(** X27.  The category chart of locally computed data has as many bars as
    labels and at most five of them; its labels are pairwise distinct, and
    each is the category of some item.  (The location chart shortens its
    labels, so two of them can coincide.) *)
Theorem category_chart_labels_distinct (items : list Item) :
  let chart :=
    Dashboard.categoriesChartData
      (Dashboard.topCategories (Dashboard.calculateLocalData items)) in
  length (fst chart) = length (snd chart)
  ∧ length (fst chart) ≤ 5
  ∧ NoDup (fst chart)
  ∧ (∀ name, name ∈ fst chart → name ∈ category <$> items)
  ∧ ∃ a b,
      a ≠ b
      ∧ fst (Dashboard.locationsChartData [(a, JsObject.VNumber 2); (b, JsObject.VNumber 1)])
        = ["Library - 2nd F..."; "Library - 2nd F..."].
Proof.
  intros chart. subst chart.
  unfold Dashboard.categoriesChartData, Dashboard.calculateLocalData.
  cbn [fst snd Dashboard.topCategories].
  unfold Dashboard.top, JsArray.slice0.
  set (ranked := JsArray.sort _ _).
  assert (fst <$> ranked ≡ₚ fst <$> Dashboard.tally category items) as Hperm.
  { subst ranked. by rewrite sort_Permutation, entries_Permutation. }
  destruct (tally_keys category items) as [Hnodup Hkeys].
  assert (fst <$> take 5 (take 10 ranked) `sublist_of` fst <$> ranked) as Hsub.
  { rewrite !fmap_take. etransitivity; apply sublist_take. }
  split_and!.
  - by rewrite !length_fmap.
  - rewrite length_fmap, length_take. lia.
  - eapply sublist_NoDup; [| exact Hsub]. by rewrite Hperm.
  - intros name Hname.
    apply (λ H, elem_of_sublist _ _ _ H Hsub) in Hname.
    rewrite Hperm in Hname. by apply Hkeys in Hname as [? _].
  - by exists "Library - 2nd Floor", "Library - 2nd Floor, East".
Qed.
